(** * OnionShare: the Tor settings tab

    A shallow embedding of [desktop/src/onionshare/tor_settings_tab.py]:
    the bridge-line validation, the construction of a [Settings] object from
    the widgets ([settings_from_fields]), the reconnect decision of
    [save_clicked] and the handlers that drive a connection attempt
    ([test_tor_clicked], [save_clicked], [tor_con_success], [tor_con_fail]). *)

From Stdlib Require Import NArith Ascii String.
From stdpp Require Import gmap strings list fin_maps relations.

Open Scope N_scope.

(** ** Python strings

    A Python [str] is a sequence of Unicode code points; a code point is a
    number, so that [\s], [str.strip] and the character ranges of the patterns
    keep their meaning on text that is not ASCII. *)

Module Str.

(** The text of a literal; the literals below are ASCII. *)
Definition of_string (s : string) : list N :=
  map N_of_ascii (list_ascii_of_string s).

(** The line feed, ["\n"]. *)
Definition LF : N := 10.

(** [str.isspace] on one character, which is also the class [\s] of [re] on
    a [str] pattern. *)
Definition is_space (c : N) : bool :=
  (N.leb 9 c && N.leb c 13) || (N.leb 28 c && N.leb c 32)
  || N.eqb c 133 || N.eqb c 160 || N.eqb c 5760
  || (N.leb 8192 c && N.leb c 8202)
  || N.eqb c 8232 || N.eqb c 8233 || N.eqb c 8239 || N.eqb c 8287
  || N.eqb c 12288.

(** [s.lstrip()], [s.rstrip()] and [s.strip()] with no argument. *)
Fixpoint lstrip (s : list N) : list N :=
  match s with
  | c :: s' => if is_space c then lstrip s' else s
  | [] => []
  end.

Definition rstrip (s : list N) : list N := rev (lstrip (rev s)).

Definition strip (s : list N) : list N := rstrip (lstrip s).

(** [s.split(sep)] for a separator of one character: one more piece than
    there are separators, the empty string gives one empty piece. *)
Fixpoint split (sep : N) (s : list N) : list (list N) :=
  match s with
  | [] => [[]]
  | c :: s' =>
      if N.eqb c sep then [] :: split sep s'
      else match split sep s' with
           | l :: ls => (c :: l) :: ls
           | [] => [[c]]
           end
  end.

(** [sep.join(pieces)]. *)
Fixpoint join (sep : list N) (pieces : list (list N)) : list N :=
  match pieces with
  | [] => []
  | [l] => l
  | l :: ls => l ++ sep ++ join sep ls
  end.

End Str.

(** ** Regular expressions of [re]

    The part of the pattern language that the four bridge patterns use:
    literals, [.], [\s] and escaped punctuation, character classes with
    ranges, groups, alternation, the greedy quantifiers and [$].  None of it
    looks around or refers back to a group, so that whether [re.match] finds
    a match does not depend on the order in which the backtracking matcher
    tries the alternatives: it finds one exactly when some way of reading the
    pattern consumes a prefix of the text. *)

Module Re.

Inductive cset_item : Type :=
| CRange (lo hi : N)   (* [a-z], and a single character as [c-c] *)
| CSpace.              (* [\s] *)

Inductive regex : Type :=
| REmpty                                    (* nothing *)
| RChar (c : N)                             (* a literal character *)
| RAny                                      (* [.] *)
| RSet (items : list cset_item)             (* [[...]] and [\s] *)
| REos                                      (* [$] *)
| RCat (a b : regex)
| RAlt (a b : regex)
| RRep (a : regex) (lo : nat) (hi : option nat).  (* [{lo,hi}], [?], [+], [*] *)

Definition cset_item_mem (c : N) (i : cset_item) : bool :=
  match i with
  | CRange lo hi => N.leb lo c && N.leb c hi
  | CSpace => Str.is_space c
  end.

(** [$] without [re.MULTILINE]: the end of the text, or just before a line
    feed that ends the text. *)
Definition at_end (s : list N) : bool :=
  match s with
  | [] => true
  | [c] => N.eqb c Str.LF
  | _ => false
  end.

(** Repetition of a matcher [m] in continuation style. *)
Section Repeat.
Variable m : list N -> (list N -> bool) -> bool.

Fixpoint times (n : nat) (s : list N) (k : list N -> bool) : bool :=
  match n with
  | O => k s
  | S n' => m s (fun s' => times n' s' k)
  end.

Fixpoint upto (n : nat) (s : list N) (k : list N -> bool) : bool :=
  match n with
  | O => k s
  | S n' => if m s (fun s' => upto n' s' k) then true else k s
  end.

(** Unbounded repetition: a round that consumes nothing adds no new way
    to match, so only rounds that consume are followed, and there are at
    most [length s] of them. *)
Fixpoint star (fuel : nat) (s : list N) (k : list N -> bool) : bool :=
  match fuel with
  | O => k s
  | S fuel' =>
      if m s (fun s' =>
                if Nat.ltb (length s') (length s)
                then star fuel' s' k else false)
      then true else k s
  end.
End Repeat.

(** [accepts r s k]: some way of reading [r] from the start of [s] leaves a
    rest that the continuation [k] accepts. *)
Fixpoint accepts (r : regex) (s : list N) (k : list N -> bool) : bool :=
  match r with
  | REmpty => k s
  | RChar c =>
      match s with
      | x :: s' => if N.eqb x c then k s' else false
      | [] => false
      end
  | RAny =>
      match s with
      | x :: s' => if N.eqb x Str.LF then false else k s'
      | [] => false
      end
  | RSet items =>
      match s with
      | x :: s' => if existsb (cset_item_mem x) items then k s' else false
      | [] => false
      end
  | REos => if at_end s then k s else false
  | RCat a b => accepts a s (fun s' => accepts b s' k)
  | RAlt a b => if accepts a s k then true else accepts b s k
  | RRep a lo hi =>
      times (accepts a) lo s
        (fun s1 =>
           match hi with
           | Some h => upto (accepts a) (h - lo) s1 k
           | None => star (accepts a) (length s1) s1 k
           end)
  end.

(** [pattern.match(text)] as a truth value: the match starts at the start
    of the text and may end anywhere. *)
Definition re_match (r : regex) (text : list N) : bool :=
  accepts r text (fun _ => true).

(** *** What a pattern reads

    [matches r s s']: one way of reading [r] from the start of [s] stops with
    [s'] left.  [RRep a lo hi] reads [a] some number of times, at least [lo]
    and at most [hi]. *)

Inductive matches : regex -> list N -> list N -> Prop :=
| M_empty s : matches REmpty s s
| M_char c s : matches (RChar c) (c :: s) s
| M_any x s : x <> Str.LF -> matches RAny (x :: s) s
| M_set items x s :
    existsb (cset_item_mem x) items = true -> matches (RSet items) (x :: s) s
| M_eos s : at_end s = true -> matches REos s s
| M_cat a b s s1 s2 :
    matches a s s1 -> matches b s1 s2 -> matches (RCat a b) s s2
| M_alt_l a b s s' : matches a s s' -> matches (RAlt a b) s s'
| M_alt_r a b s s' : matches b s s' -> matches (RAlt a b) s s'
| M_rep_done a hi s : matches (RRep a 0 hi) s s
| M_rep_more a lo hi s s1 s2 :
    hi <> Some 0%nat ->
    matches a s s1 ->
    matches (RRep a (pred lo) (pred <$> hi)) s1 s2 ->
    matches (RRep a lo hi) s s2.

(** [n] steps of a relation on texts. *)
Fixpoint iter (R : list N -> list N -> Prop) (n : nat) (s s' : list N) : Prop :=
  match n with
  | O => s = s'
  | S n' => exists s1, R s s1 /\ iter R n' s1 s'
  end.

(** [re.compile] refuses a repetition whose lower bound exceeds the upper
    one. *)
Fixpoint wf (r : regex) : bool :=
  match r with
  | RCat a b | RAlt a b => wf a && wf b
  | RRep a lo (Some hi) => Nat.leb lo hi && wf a
  | RRep a _ None => wf a
  | _ => true
  end.

(** Can the pattern read nothing, and with which character can a reading
    that consumes something start (an upper estimate). *)
Fixpoint nullable (r : regex) : bool :=
  match r with
  | REmpty | REos => true
  | RChar _ | RAny | RSet _ => false
  | RCat a b => nullable a && nullable b
  | RAlt a b => nullable a || nullable b
  | RRep a lo _ => match lo with O => true | S _ => nullable a end
  end.

Fixpoint first (r : regex) (c : N) : bool :=
  match r with
  | REmpty | REos => false
  | RChar x => N.eqb c x
  | RAny => negb (N.eqb c Str.LF)
  | RSet items => existsb (cset_item_mem c) items
  | RCat a b => first a c || (nullable a && first b c)
  | RAlt a b => first a c || first b c
  | RRep a _ _ => first a c
  end.

(** *** [re.compile]

    A recursive-descent reader for the pattern text.  It gives [None] on
    anything outside the part of the language modelled above (anchors other
    than [$], lazy quantifiers, special groups, escapes in a class, ...). *)

Definition ch (a : ascii) : N := N_of_ascii a.

Definition cat (items : list regex) : regex :=
  match items with
  | [] => REmpty
  | a :: rest => foldl RCat a rest
  end.

Definition alt (alts : list regex) : regex :=
  match alts with
  | [] => REmpty
  | a :: rest => foldl RAlt a rest
  end.

Definition is_digit (c : N) : bool := N.leb 48 c && N.leb c 57.

Definition is_alnum (c : N) : bool :=
  is_digit c || (N.leb 65 c && N.leb c 90) || (N.leb 97 c && N.leb c 122).

Definition is_special (c : N) : bool :=
  existsb (N.eqb c) (Str.of_string ".^$*+?{}[]\|()").

(** A decimal number: its value and the rest, [None] without a digit. *)
Fixpoint parse_digits (acc : nat) (s : list N) : nat * list N :=
  match s with
  | c :: s' =>
      if is_digit c then parse_digits (10 * acc + N.to_nat (c - 48)) s'
      else (acc, s)
  | [] => (acc, [])
  end.

Definition parse_nat (s : list N) : option (nat * list N) :=
  match s with
  | c :: _ => if is_digit c then Some (parse_digits 0 s) else None
  | [] => None
  end.

(** The inside of [[...]], after the opening bracket. *)
Fixpoint parse_class (s : list N) : option (list cset_item * list N) :=
  match s with
  | [] => None
  | c :: s1 =>
      if N.eqb c (ch "]") then Some ([], s1)
      else if N.eqb c (ch "\") || N.eqb c (ch "^") || N.eqb c (ch "[")
      then None
      else
        let single :=
          '(items, rest) ← parse_class s1; Some (CRange c c :: items, rest) in
        match s1 with
        | d :: e :: s2 =>
            if N.eqb d (ch "-") && negb (N.eqb e (ch "]")) then
              if N.eqb e (ch "\") || N.eqb e (ch "[") || negb (N.leb c e)
              then None
              else '(items, rest) ← parse_class s2;
                   Some (CRange c e :: items, rest)
            else single
        | _ => single
        end
  end.

(** A quantifier after the atom [a], if there is one. *)
Definition parse_quant (a : regex) (s : list N) : option (regex * list N) :=
  match s with
  | c :: s1 =>
      if N.eqb c (ch "?") then Some (RRep a 0 (Some 1%nat), s1)
      else if N.eqb c (ch "+") then Some (RRep a 1 None, s1)
      else if N.eqb c (ch "*") then Some (RRep a 0 None, s1)
      else if N.eqb c (ch "{") then
        '(lo, s2) ← parse_nat s1;
        match s2 with
        | d :: s3 =>
            if N.eqb d (ch "}") then Some (RRep a lo (Some lo), s3)
            else if N.eqb d (ch ",") then
              match s3 with
              | e :: s4 =>
                  if N.eqb e (ch "}") then Some (RRep a lo None, s4)
                  else
                    '(hi, s5) ← parse_nat s3;
                    match s5 with
                    | f :: s6 =>
                        if N.eqb f (ch "}") && Nat.leb lo hi
                        then Some (RRep a lo (Some hi), s6) else None
                    | [] => None
                    end
              | [] => None
              end
            else None
        | [] => None
        end
      else Some (a, s)
  | [] => Some (a, [])
  end.

Fixpoint parse_alts (fuel : nat) (s : list N)
  : option (list regex * list N) :=
  match fuel with
  | O => None
  | S fuel' =>
      '(items, s1) ← parse_items fuel' s;
      match s1 with
      | c :: s2 =>
          if N.eqb c (ch "|") then
            '(alts, s3) ← parse_alts fuel' s2;
            Some (cat items :: alts, s3)
          else Some ([cat items], s1)
      | [] => Some ([cat items], [])
      end
  end
with parse_items (fuel : nat) (s : list N)
  : option (list regex * list N) :=
  match fuel with
  | O => None
  | S fuel' =>
      match s with
      | [] => Some ([], [])
      | c :: _ =>
          if N.eqb c (ch "|") || N.eqb c (ch ")") then Some ([], s)
          else
            '(a, s2) ← parse_atom fuel' s;
            '(q, s3) ← parse_quant a s2;
            '(rest, s4) ← parse_items fuel' s3;
            Some (q :: rest, s4)
      end
  end
with parse_atom (fuel : nat) (s : list N) : option (regex * list N) :=
  match fuel with
  | O => None
  | S fuel' =>
      match s with
      | [] => None
      | c :: s1 =>
          if N.eqb c (ch "(") then
            '(alts, s2) ← parse_alts fuel' s1;
            match s2 with
            | d :: s3 => if N.eqb d (ch ")") then Some (alt alts, s3) else None
            | [] => None
            end
          else if N.eqb c (ch "[") then
            '(items, s2) ← parse_class s1;
            match items with
            | [] => None
            | _ => Some (RSet items, s2)
            end
          else if N.eqb c (ch "\") then
            match s1 with
            | e :: s2 =>
                if N.eqb e (ch "s") then Some (RSet [CSpace], s2)
                else if is_alnum e || negb (N.ltb e 128) then None
                else Some (RChar e, s2)
            | [] => None
            end
          else if N.eqb c (ch ".") then Some (RAny, s1)
          else if N.eqb c (ch "$") then Some (REos, s1)
          else if is_special c then None
          else Some (RChar c, s1)
      end
  end.

Definition re_compile (pattern : string) : option regex :=
  let s := Str.of_string pattern in
  match parse_alts (4 * length s + 4) s with
  | Some (alts, []) => Some (alt alts)
  | _ => None
  end.

(** [re.compile(pattern).match(text)] as a truth value; a pattern that does
    not compile matches nothing. *)
Definition compiled_match (p : option regex) (text : list N) : bool :=
  match p with
  | Some r => re_match r text
  | None => false
  end.

End Re.

(** ** The four bridge-line patterns

    The pattern texts are those of the source, character for character (a
    Python string literal keeps the backslash of [\s], [\.], [\[] and [\]]). *)

Definition ipv4_pattern : option Re.regex :=
  Re.re_compile
    "(obfs4\s+)?(([0-9]|[1-9][0-9]|1[0-9]{2}|2[0-4][0-9]|25[0-5])\.){3}([0-9]|[1-9][0-9]|1[0-9]{2}|2[0-4][0-9]|25[0-5]):([0-9]+)(\s+)([A-Z0-9]+)(.+)$".

Definition ipv6_pattern : option Re.regex :=
  Re.re_compile
    "(obfs4\s+)?\[(([0-9a-fA-F]{1,4}:){7,7}[0-9a-fA-F]{1,4}|([0-9a-fA-F]{1,4}:){1,7}:|([0-9a-fA-F]{1,4}:){1,6}:[0-9a-fA-F]{1,4}|([0-9a-fA-F]{1,4}:){1,5}(:[0-9a-fA-F]{1,4}){1,2}|([0-9a-fA-F]{1,4}:){1,4}(:[0-9a-fA-F]{1,4}){1,3}|([0-9a-fA-F]{1,4}:){1,3}(:[0-9a-fA-F]{1,4}){1,4}|([0-9a-fA-F]{1,4}:){1,2}(:[0-9a-fA-F]{1,4}){1,5}|[0-9a-fA-F]{1,4}:((:[0-9a-fA-F]{1,4}){1,6})|:((:[0-9a-fA-F]{1,4}){1,7}|:)|fe80:(:[0-9a-fA-F]{0,4}){0,4}%[0-9a-zA-Z]{1,}|::(ffff(:0{1,4}){0,1}:){0,1}((25[0-5]|(2[0-4]|1{0,1}[0-9]){0,1}[0-9])\.){3,3}(25[0-5]|(2[0-4]|1{0,1}[0-9]){0,1}[0-9])|([0-9a-fA-F]{1,4}:){1,4}:((25[0-5]|(2[0-4]|1{0,1}[0-9]){0,1}[0-9])\.){3,3}(25[0-5]|(2[0-4]|1{0,1}[0-9]){0,1}[0-9]))\]:[0-9]+\s+[A-Z0-9]+(.+)$".

Definition meek_lite_pattern : option Re.regex :=
  Re.re_compile
    "(meek_lite)(\s)+([0-9]+\.[0-9]+\.[0-9]+\.[0-9]+:[0-9]+)(\s)+([0-9A-Z]+)(\s)+url=(.+)(\s)+front=(.+)".

Definition snowflake_pattern : option Re.regex :=
  Re.re_compile
    "(snowflake)(\s)+([0-9]+\.[0-9]+\.[0-9]+\.[0-9]+:[0-9]+)(\s)+([0-9A-Z]+)".

(** The test of lines 839-844: the line matches one of the four patterns. *)
Definition bridge_matches (bridge : list N) : bool :=
  Re.compiled_match ipv4_pattern bridge
  || Re.compiled_match ipv6_pattern bridge
  || Re.compiled_match meek_lite_pattern bridge
  || Re.compiled_match snowflake_pattern bridge.

(** The four patterns as [re.compile] reads them, written out. *)

#[export] Instance cset_item_eq_dec : EqDecision Re.cset_item.
Proof. solve_decision. Defined.

#[export] Instance regex_eq_dec : EqDecision Re.regex.
Proof. solve_decision. Defined.

Module Ast.
Import Re.
Definition lit (s : string) : list regex := map RChar (Str.of_string s).
Definition opt (r : regex) : regex := RRep r 0 (Some 1%nat).
Definition plus (r : regex) : regex := RRep r 1 None.
Definition rep (r : regex) (lo hi : nat) : regex := RRep r lo (Some hi).
Definition space : regex := RSet [CSpace].
Definition range (a b : ascii) : cset_item := CRange (ch a) (ch b).
Definition digit : regex := RSet [range "0" "9"].
Definition c (a : ascii) : regex := RChar (ch a).
Definition hex : regex := RSet [range "0" "9"; range "a" "f"; range "A" "F"].
Definition fingerprint : regex := plus (RSet [range "A" "Z"; range "0" "9"]).
Definition fingerprint' : regex := plus (RSet [range "0" "9"; range "A" "Z"]).

Definition octet : regex :=
  alt [ digit;
        cat [RSet [range "1" "9"]; digit];
        cat [c "1"; rep digit 2 2];
        cat [c "2"; RSet [range "0" "4"]; digit];
        cat [c "2"; c "5"; RSet [range "0" "5"]] ].

Definition ipv4 : regex :=
  cat [ opt (cat (lit "obfs4" ++ [plus space]));
        rep (cat [octet; c "."]) 3 3; octet; c ":"; plus digit;
        plus space; fingerprint; plus RAny; REos ].

Definition h4 : regex := rep hex 1 4.
Definition h4c : regex := cat [h4; c ":"].
Definition ch4 : regex := cat [c ":"; h4].
(** [(25[0-5]|(2[0-4]|1{0,1}[0-9]){0,1}[0-9])] *)
Definition octet' : regex :=
  alt [ cat [c "2"; c "5"; RSet [range "0" "5"]];
        cat [ rep (alt [ cat [c "2"; RSet [range "0" "4"]];
                         cat [rep (c "1") 0 1; digit] ]) 0 1;
              digit ] ].

Definition ipv6_address : regex :=
  alt [ cat [rep h4c 7 7; h4];
        cat [rep h4c 1 7; c ":"];
        cat [rep h4c 1 6; c ":"; h4];
        cat [rep h4c 1 5; rep ch4 1 2];
        cat [rep h4c 1 4; rep ch4 1 3];
        cat [rep h4c 1 3; rep ch4 1 4];
        cat [rep h4c 1 2; rep ch4 1 5];
        cat [h4; c ":"; rep ch4 1 6];
        cat [c ":"; alt [rep ch4 1 7; c ":"]];
        cat (lit "fe80:" ++ [ rep (cat [c ":"; rep hex 0 4]) 0 4; c "%";
                              RRep (RSet [range "0" "9"; range "a" "z";
                                          range "A" "Z"]) 1 None ]);
        cat (lit "::" ++ [ rep (cat (lit "ffff"
                                       ++ [ rep (cat [c ":"; rep (c "0") 1 4]) 0 1;
                                            c ":" ])) 0 1 ]
                      ++ [rep (cat [octet'; c "."]) 3 3; octet']);
        cat [rep h4c 1 4; c ":"; rep (cat [octet'; c "."]) 3 3; octet'] ].

Definition ipv6 : regex :=
  cat [ opt (cat (lit "obfs4" ++ [plus space]));
        c "["; ipv6_address; c "]"; c ":"; plus digit; plus space;
        fingerprint; plus RAny; REos ].

Definition ipv4_port : regex :=
  cat [ plus digit; c "."; plus digit; c "."; plus digit; c "."; plus digit;
        c ":"; plus digit ].

Definition meek_lite : regex :=
  cat ([ cat (lit "meek_lite"); plus space; ipv4_port; plus space;
         fingerprint'; plus space ]
       ++ lit "url=" ++ [plus RAny; plus space] ++ lit "front="
       ++ [plus RAny]).

Definition snowflake : regex :=
  cat [ cat (lit "snowflake"); plus space; ipv4_port; plus space;
        fingerprint' ].
End Ast.

(** ** The settings store

    Modelled from the spec: the class [Settings] of [onionshare_cli.settings]
    is not part of the sources at hand.  The spec (section 6) describes it as
    an opaque key-value store of which only the get/set behaviour by field
    name matters, with [load()] giving the persisted configuration and
    [save()] persisting the object.  A settings object is therefore a finite
    map from field names to values, [set] stores the value as it is given and
    [get] reads it back; a name that the object does not hold reads as
    [None]. *)

Inductive value : Type :=
| VBool (b : bool)
| VInt (z : Z)
| VStr (s : list N).

#[export] Instance value_eq_dec : EqDecision value.
Proof. solve_decision. Defined.

Module Settings.

Definition set (key : string) (val : value) (settings : gmap string value)
  : gmap string value :=
  <[key := val]> settings.

Definition get (key : string) (settings : gmap string value) : option value :=
  settings !! key.

End Settings.

(** Python's [==] on the values a settings object holds: [bool] is a kind of
    [int] ([True == 1]), a string equals only the same string. *)
Definition py_eq (a b : value) : bool :=
  match a, b with
  | VStr s, VStr t => bool_decide (s = t)
  | VStr _, _ | _, VStr _ => false
  | VBool x, VBool y => Bool.eqb x y
  | VBool x, VInt z | VInt z, VBool x => Z.eqb (Z.b2z x) z
  | VInt x, VInt y => Z.eqb x y
  end.

Definition py_ne (a b : option value) : bool :=
  match a, b with
  | Some x, Some y => negb (py_eq x y)
  | None, None => false
  | _, _ => true
  end.

(** ** The widgets that [settings_from_fields] reads *)

(** [QtCore.Qt.CheckState]. *)
Inductive CheckState : Type := Unchecked | PartiallyChecked | Checked.

#[export] Instance CheckState_eq_dec : EqDecision CheckState.
Proof. solve_decision. Defined.

Record Fields : Type := {
  connection_type_bundled_radio : bool;                   (* isChecked() *)
  connection_type_automatic_radio : bool;
  connection_type_control_port_radio : bool;
  connection_type_socket_file_radio : bool;
  connection_type_control_port_extras_address : list N;   (* text() *)
  connection_type_control_port_extras_port : list N;
  connection_type_socket_file_extras_path : list N;
  connection_type_socks_address : list N;
  connection_type_socks_port : list N;
  authenticate_no_auth_checkbox : CheckState;             (* checkState() *)
  authenticate_password_extras_password : list N;
  bridge_use_checkbox : CheckState;
  bridge_builtin_radio : bool;
  bridge_builtin_dropdown : list N;                       (* currentText() *)
  bridge_moat_radio : bool;
  bridge_moat_textbox : list N;                           (* toPlainText() *)
  bridge_custom_radio : bool;
  bridge_custom_textbox : list N
}.

(** The three bridge radio buttons are laid out in the one widget
    [bridge_settings] (lines 146-154); Qt keeps the radio buttons of one
    parent exclusive, so that at most one of them is checked. *)
Definition bridge_radios_exclusive (f : Fields) : bool :=
  match bridge_builtin_radio f, bridge_moat_radio f, bridge_custom_radio f with
  | true, false, false | false, true, false | false, false, true
  | false, false, false => true
  | _, _, _ => false
  end.

(** The two messages that [settings_from_fields] puts in the error label
    before it returns [False]; the spec calls them [MoatBridgesEmpty] and
    [CustomBridgesInvalid]. *)
Inductive strings_id : Type :=
| gui_settings_moat_bridges_invalid
| gui_settings_tor_bridges_invalid.

#[export] Instance strings_id_eq_dec : EqDecision strings_id.
Proof. solve_decision. Defined.

Definition MoatBridgesEmpty : strings_id := gui_settings_moat_bridges_invalid.
Definition CustomBridgesInvalid : strings_id := gui_settings_tor_bridges_invalid.

(** The outcome of [settings_from_fields]: the settings object, or [False]
    with the message that was put in the error label. *)
Inductive built (A : Type) : Type :=
| Built (settings : A)
| Invalid (message : strings_id).
Arguments Built {A} settings.
Arguments Invalid {A} message.

#[export] Instance built_eq_dec {A} `{EqDecision A} : EqDecision (built A).
Proof. solve_decision. Defined.

Definition built_bind {A B : Type} (x : built A) (k : A -> built B) : built B :=
  match x with
  | Built a => k a
  | Invalid e => Invalid e
  end.

Notation "'let*' x ':=' e 'in' k" := (built_bind e (fun x => k))
  (at level 10, x name, e at level 200, k at level 200).

(** ** Validation of the custom bridges (lines 821-846) *)

Definition nonempty (bridge : list N) : bool :=
  match bridge with
  | [] => false
  | _ :: _ => true
  end.

(** One round of the [for bridge in bridges] loop on the pair
    [(new_bridges, bridges_valid)]. *)
Definition check_bridge (acc : list (list N) * bool) (bridge : list N)
  : list (list N) * bool :=
  let '(new_bridges, bridges_valid) := acc in
  if nonempty bridge then
    if bridge_matches bridge then (new_bridges ++ [bridge], true)
    else (new_bridges, bridges_valid)
  else (new_bridges, bridges_valid).

Definition validate_bridges (textbox : list N) : list (list N) * bool :=
  let bridges := Str.split Str.LF textbox in
  foldl check_bridge ([], false) bridges.

(** ** [settings_from_fields] (lines 733-859) *)

Import Settings.

Definition set_connection_type (f : Fields) (settings : gmap string value)
  : gmap string value :=
  let settings :=
    if connection_type_bundled_radio f
    then set "connection_type" (VStr (Str.of_string "bundled")) settings
    else settings in
  let settings :=
    if connection_type_automatic_radio f
    then set "connection_type" (VStr (Str.of_string "automatic")) settings
    else settings in
  let settings :=
    if connection_type_control_port_radio f
    then set "connection_type" (VStr (Str.of_string "control_port")) settings
    else settings in
  if connection_type_socket_file_radio f
  then set "connection_type" (VStr (Str.of_string "socket_file")) settings
  else settings.

(** Lines 751-770: the text fields and the authentication. *)
Definition set_text_fields (f : Fields) (settings : gmap string value)
  : gmap string value :=
  let settings :=
    set "control_port_address"
      (VStr (connection_type_control_port_extras_address f)) settings in
  let settings :=
    set "control_port_port"
      (VStr (connection_type_control_port_extras_port f)) settings in
  let settings :=
    set "socket_file_path"
      (VStr (connection_type_socket_file_extras_path f)) settings in
  let settings :=
    set "socks_address" (VStr (connection_type_socks_address f)) settings in
  let settings :=
    set "socks_port" (VStr (connection_type_socks_port f)) settings in
  let settings :=
    if bool_decide (authenticate_no_auth_checkbox f = Checked)
    then set "auth_type" (VStr (Str.of_string "no_auth")) settings
    else set "auth_type" (VStr (Str.of_string "password")) settings in
  set "auth_password" (VStr (authenticate_password_extras_password f)) settings.

(** Lines 776-792. *)
Definition set_builtin_bridges (f : Fields) (settings : gmap string value)
  : gmap string value :=
  if bridge_builtin_radio f then
    let selection := bridge_builtin_dropdown f in
    let settings :=
      if bool_decide (selection = Str.of_string "obfs4") then
        set "tor_bridges_use_snowflake" (VBool false)
          (set "tor_bridges_use_meek_lite_azure" (VBool false)
             (set "tor_bridges_use_obfs4" (VBool true) settings))
      else if bool_decide (selection = Str.of_string "meek-azure") then
        set "tor_bridges_use_snowflake" (VBool false)
          (set "tor_bridges_use_meek_lite_azure" (VBool true)
             (set "tor_bridges_use_obfs4" (VBool false) settings))
      else if bool_decide (selection = Str.of_string "snowflake") then
        set "tor_bridges_use_snowflake" (VBool true)
          (set "tor_bridges_use_meek_lite_azure" (VBool false)
             (set "tor_bridges_use_obfs4" (VBool false) settings))
      else settings in
    let settings := set "tor_bridges_use_moat" (VBool false) settings in
    set "tor_bridges_use_custom_bridges" (VStr []) settings
  else settings.

(** Lines 794-813. *)
Definition set_moat_bridges (f : Fields) (settings : gmap string value)
  : built (gmap string value) :=
  if bridge_moat_radio f then
    let settings := set "tor_bridges_use_obfs4" (VBool false) settings in
    let settings := set "tor_bridges_use_meek_lite_azure" (VBool false) settings in
    let settings := set "tor_bridges_use_snowflake" (VBool false) settings in
    let settings := set "tor_bridges_use_moat" (VBool true) settings in
    let moat_bridges := bridge_moat_textbox f in
    if bool_decide (Str.strip moat_bridges = []) then
      Invalid gui_settings_moat_bridges_invalid
    else
      let settings :=
        set "tor_bridges_use_moat_bridges" (VStr moat_bridges) settings in
      Built (set "tor_bridges_use_custom_bridges" (VStr []) settings)
  else Built settings.

(** Lines 815-855. *)
Definition set_custom_bridges (f : Fields) (settings : gmap string value)
  : built (gmap string value) :=
  if bridge_custom_radio f then
    let settings := set "tor_bridges_use_obfs4" (VBool false) settings in
    let settings := set "tor_bridges_use_meek_lite_azure" (VBool false) settings in
    let settings := set "tor_bridges_use_snowflake" (VBool false) settings in
    let settings := set "tor_bridges_use_moat" (VBool false) settings in
    let '(new_bridges, bridges_valid) :=
      validate_bridges (bridge_custom_textbox f) in
    if bridges_valid then
      let new_bridges := Str.join [Str.LF] new_bridges ++ [Str.LF] in
      Built (set "tor_bridges_use_custom_bridges" (VStr new_bridges) settings)
    else Invalid gui_settings_tor_bridges_invalid
  else Built settings.

(** [loaded] is what [settings.load()] reads: the persisted configuration. *)
Definition settings_from_fields (loaded : gmap string value) (f : Fields)
  : built (gmap string value) :=
  let settings := loaded in
  let settings := set_connection_type f settings in
  let settings := set_text_fields f settings in
  if bool_decide (bridge_use_checkbox f = Checked) then
    let settings := set "no_bridges" (VBool false) settings in
    let settings := set_builtin_bridges f settings in
    let* settings := set_moat_bridges f settings in
    set_custom_bridges f settings
  else
    Built (set "no_bridges" (VBool true) settings).

(** ** The reconnect decision of [save_clicked] (lines 617-667) *)

(** The local function [changed]: some value differs for the given keys. *)
Fixpoint changed (s1 s2 : gmap string value) (keys : list string) : bool :=
  match keys with
  | [] => false
  | key :: keys' =>
      if py_ne (get key s1) (get key s2) then true else changed s1 s2 keys'
  end.

(** The list of keys of lines 644-657. *)
Definition compared_keys : list string :=
  [ "connection_type"; "control_port_address"; "control_port_port";
    "socks_address"; "socks_port"; "socket_file_path"; "auth_type";
    "auth_password"; "no_bridges"; "tor_bridges_use_obfs4";
    "tor_bridges_use_meek_lite_azure"; "tor_bridges_use_custom_bridges" ]%string.

(** The value of [reboot_onion] after lines 636-667, which run when the
    program is not in local-only mode: [true] is the spec's [MustReconnect],
    [false] its [NoActionNeeded]. *)
Definition reboot_onion (is_authenticated : bool)
    (settings old_settings : gmap string value) : bool :=
  if is_authenticated then
    if changed settings old_settings compared_keys then true else false
  else true.

(** ** The tab and its handlers *)

(** [self.tor_con_type]: ["test"] or ["save"] while a connection attempt
    runs. *)
Inductive con_type : Type := con_test | con_save.

(** The text of a label: given text, or a localised message. *)
Inductive label_text : Type :=
| Text (s : list N)
| Localised (id : strings_id).

#[export] Instance con_type_eq_dec : EqDecision con_type.
Proof. solve_decision. Defined.

#[export] Instance label_text_eq_dec : EqDecision label_text.
Proof. solve_decision. Defined.

(** The calls to the collaborators, in the order they are made. *)
Inductive event : Type :=
| SettingsSave (settings : gmap string value)   (* [settings.save()] *)
| OnionCleanup                                  (* [self.common.gui.onion.cleanup()] *)
| TestOnionNew                                  (* [Onion(..., use_tmp_dir=True, ...)] *)
| TestOnionCleanup                              (* [self.test_onion.cleanup()] *)
| TorConStart (settings : gmap string value) (test : bool)
                                                (* [self.tor_con.start(settings[, True, self.test_onion])] *)
| AlertTestSuccess                              (* [Alert(..., settings_test_success ...)] *)
| CloseThisTab.                                 (* [self.close_this_tab.emit()] *)

#[export] Instance event_eq_dec : EqDecision event.
Proof. solve_decision. Defined.

Record Tab : Type := {
  fields : Fields;
  old_settings : gmap string value;   (* loaded by [reload_settings] *)
  stored : gmap string value;         (* what the settings store holds *)
  local_only : bool;                  (* [self.common.gui.local_only] *)
  is_authenticated : bool;            (* answer of [onion.is_authenticated()] *)
  wasCanceled : bool;                 (* answer of [self.tor_con.wasCanceled()] *)
  tor_con_type : option con_type;
  error_label : label_text;
  buttons_shown : bool;               (* [test_tor_button] and [save_button] *)
  tor_con_shown : bool;
  events : list event
}.

Definition set_error_label (l : label_text) (t : Tab) : Tab :=
  {| fields := fields t; old_settings := old_settings t; stored := stored t;
     local_only := local_only t; is_authenticated := is_authenticated t;
     wasCanceled := wasCanceled t; tor_con_type := tor_con_type t;
     error_label := l; buttons_shown := buttons_shown t;
     tor_con_shown := tor_con_shown t; events := events t |}.

Definition set_tor_con_type (c : option con_type) (t : Tab) : Tab :=
  {| fields := fields t; old_settings := old_settings t; stored := stored t;
     local_only := local_only t; is_authenticated := is_authenticated t;
     wasCanceled := wasCanceled t; tor_con_type := c;
     error_label := error_label t; buttons_shown := buttons_shown t;
     tor_con_shown := tor_con_shown t; events := events t |}.

(** [show] is [true] when the connection widget is shown and the two buttons
    are hidden, [false] the other way round. *)
Definition show_tor_con (show : bool) (t : Tab) : Tab :=
  {| fields := fields t; old_settings := old_settings t; stored := stored t;
     local_only := local_only t; is_authenticated := is_authenticated t;
     wasCanceled := wasCanceled t; tor_con_type := tor_con_type t;
     error_label := error_label t; buttons_shown := negb show;
     tor_con_shown := show; events := events t |}.

Definition emit (e : event) (t : Tab) : Tab :=
  {| fields := fields t; old_settings := old_settings t; stored := stored t;
     local_only := local_only t; is_authenticated := is_authenticated t;
     wasCanceled := wasCanceled t; tor_con_type := tor_con_type t;
     error_label := error_label t; buttons_shown := buttons_shown t;
     tor_con_shown := tor_con_shown t; events := events t ++ [e] |}.

(** [settings.save()]: the store now holds the object. *)
Definition save (settings : gmap string value) (t : Tab) : Tab :=
  emit (SettingsSave settings)
  {| fields := fields t; old_settings := old_settings t; stored := settings;
     local_only := local_only t; is_authenticated := is_authenticated t;
     wasCanceled := wasCanceled t; tor_con_type := tor_con_type t;
     error_label := error_label t; buttons_shown := buttons_shown t;
     tor_con_shown := tor_con_shown t; events := events t |}.

(** [test_tor_clicked] (lines 583-607). *)
Definition test_tor_clicked (t : Tab) : Tab :=
  let t := set_error_label (Text []) t in
  match settings_from_fields (stored t) (fields t) with
  | Invalid message => set_error_label (Localised message) t
  | Built settings =>
      let t := show_tor_con true t in
      let t := emit TestOnionNew t in
      let t := set_tor_con_type (Some con_test) t in
      emit (TorConStart settings true) t
  end.

(** [save_clicked] (lines 609-686). *)
Definition save_clicked (t : Tab) : Tab :=
  let t := set_error_label (Text []) t in
  match settings_from_fields (stored t) (fields t) with
  | Invalid message => set_error_label (Localised message) t
  | Built settings =>
      let t := save settings t in
      if negb (local_only t) then
        if reboot_onion (is_authenticated t) settings (old_settings t) then
          let t := emit OnionCleanup t in
          let t := show_tor_con true t in
          let t := set_tor_con_type (Some con_save) t in
          emit (TorConStart settings false) t
        else emit CloseThisTab t
      else emit CloseThisTab t
  end.

(** [tor_con_success] (lines 688-716). *)
Definition tor_con_success (t : Tab) : Tab :=
  let t := show_tor_con false t in
  let t :=
    match tor_con_type t with
    | Some con_test => emit TestOnionCleanup (emit AlertTestSuccess t)
    | Some con_save =>
        if is_authenticated t && negb (wasCanceled t)
        then emit CloseThisTab t else t
    | None => t
    end in
  set_tor_con_type None t.

(** [tor_con_fail] (lines 718-731). *)
Definition tor_con_fail (msg : list N) (t : Tab) : Tab :=
  let t := show_tor_con false t in
  let t := set_error_label (Text msg) t in
  let t :=
    match tor_con_type t with
    | Some con_test => emit TestOnionCleanup t
    | _ => t
    end in
  set_tor_con_type None t.

(** Between two handlers the connection attempt runs: what the onion and the
    connection widget answer when asked may have changed. *)
Definition answers (authenticated canceled : bool) (t : Tab) : Tab :=
  {| fields := fields t; old_settings := old_settings t; stored := stored t;
     local_only := local_only t; is_authenticated := authenticated;
     wasCanceled := canceled; tor_con_type := tor_con_type t;
     error_label := error_label t; buttons_shown := buttons_shown t;
     tor_con_shown := tor_con_shown t; events := events t |}.

(** The user edits the widgets. *)
Definition set_fields (f : Fields) (t : Tab) : Tab :=
  {| fields := f; old_settings := old_settings t; stored := stored t;
     local_only := local_only t; is_authenticated := is_authenticated t;
     wasCanceled := wasCanceled t; tor_con_type := tor_con_type t;
     error_label := error_label t; buttons_shown := buttons_shown t;
     tor_con_shown := tor_con_shown t; events := events t |}.

(** What can happen to the tab: the user edits the widgets or clicks one of
    the two buttons (they are hidden while a connection attempt runs), the
    collaborators change their answers, the connection widget signals
    success or failure of the attempt it was started for. *)
Inductive step : Tab -> Tab -> Prop :=
| step_edit t f : step t (set_fields f t)
| step_answers t a c : step t (answers a c t)
| step_test t : tor_con_type t = None -> step t (test_tor_clicked t)
| step_save t : tor_con_type t = None -> step t (save_clicked t)
| step_success t : tor_con_type t <> None -> step t (tor_con_success t)
| step_fail t msg : tor_con_type t <> None -> step t (tor_con_fail msg t).

(** The settings of the last [settings.save()] in a log, [initial] when there
    is none. *)
Definition last_saved (initial : gmap string value) (log : list event)
  : gmap string value :=
  foldl (fun acc e => match e with SettingsSave s => s | _ => acc end)
    initial log.

(** The settings that a log saves, in order. *)
Definition saves (log : list event) : list (gmap string value) :=
  omap (fun e => match e with SettingsSave s => Some s | _ => None end) log.

(** ** Specification-side notions *)

(** A line that the validation is meant to accept: not empty, and matching
    one of the four patterns. *)
Definition accepted_line (bridge : list N) : bool :=
  nonempty bridge && bridge_matches bridge.

(** Blank text: empty, or white space only. *)
Definition blank (s : list N) : bool := forallb Str.is_space s.

(** The six bridge fields other than [no_bridges]. *)
Definition bridge_keys : list string :=
  [ "tor_bridges_use_obfs4"; "tor_bridges_use_meek_lite_azure";
    "tor_bridges_use_snowflake"; "tor_bridges_use_moat";
    "tor_bridges_use_moat_bridges"; "tor_bridges_use_custom_bridges" ]%string.

(** ** Sample states

    Concrete settings and widget states on which the properties below are
    run. *)

Module Sample.

Definition u : string -> list N := Str.of_string.

(** A store that holds built-in obfs4 bridges, and the text of bridges
    requested earlier. *)
Definition obfs4_settings : gmap string value :=
  list_to_map
    [ ("connection_type", VStr (u "bundled"));
      ("control_port_address", VStr (u "127.0.0.1"));
      ("control_port_port", VStr (u "9051"));
      ("socks_address", VStr (u "127.0.0.1"));
      ("socks_port", VStr (u "9050"));
      ("socket_file_path", VStr (u "/var/run/tor/control"));
      ("auth_type", VStr (u "no_auth"));
      ("auth_password", VStr []);
      ("no_bridges", VBool false);
      ("tor_bridges_use_obfs4", VBool true);
      ("tor_bridges_use_meek_lite_azure", VBool false);
      ("tor_bridges_use_snowflake", VBool false);
      ("tor_bridges_use_moat", VBool false);
      ("tor_bridges_use_moat_bridges",
       VStr (u "obfs4 192.0.2.7:443 0123456789ABCDEF0123456789ABCDEF01234567 cert=abc iat-mode=0"));
      ("tor_bridges_use_custom_bridges", VStr []) ]%string.

Definition bridge_line : list N :=
  u "obfs4 192.0.2.1:443 ABCDEF0123456789ABCDEF0123456789ABCDEF01".

(** Bundled Tor without authentication, and a bridge selection. *)
Definition with_bridges (use : CheckState) (builtin : bool)
    (dropdown : list N) (moat : bool) (moat_text : list N)
    (custom : bool) (custom_text : list N) : Fields := {|
  connection_type_bundled_radio := true;
  connection_type_automatic_radio := false;
  connection_type_control_port_radio := false;
  connection_type_socket_file_radio := false;
  connection_type_control_port_extras_address := u "127.0.0.1";
  connection_type_control_port_extras_port := u "9051";
  connection_type_socket_file_extras_path := u "/var/run/tor/control";
  connection_type_socks_address := u "127.0.0.1";
  connection_type_socks_port := u "9050";
  authenticate_no_auth_checkbox := Checked;
  authenticate_password_extras_password := [];
  bridge_use_checkbox := use;
  bridge_builtin_radio := builtin;
  bridge_builtin_dropdown := dropdown;
  bridge_moat_radio := moat;
  bridge_moat_textbox := moat_text;
  bridge_custom_radio := custom;
  bridge_custom_textbox := custom_text
|}.

(** Bridges switched off; the radio button that was checked stays so. *)
Definition no_bridges_fields : Fields :=
  with_bridges Unchecked true (u "obfs4") false [] false [].

Definition no_radio_fields : Fields :=
  with_bridges Checked false (u "obfs4") false [] false [].

Definition snowflake_fields : Fields :=
  with_bridges Checked true (u "snowflake") false [] false [].

Definition moat_blank_fields : Fields :=
  with_bridges Checked false (u "obfs4") true (u "  ") false [].

Definition moat_fields : Fields :=
  with_bridges Checked false (u "obfs4") true bridge_line false [].

(** The tab was opened on requested bridges, then the built-in snowflake
    bridge was selected; the moat textbox still shows the requested line. *)
Definition moat_to_snowflake_fields : Fields :=
  with_bridges Checked true (u "snowflake") false bridge_line false [].

(** The custom bridges of the spec's scenario: a well-formed line, a
    garbage line, and the empty piece after the last line feed. *)
Definition custom_text : list N :=
  bridge_line ++ [Str.LF] ++ u "notabridge" ++ [Str.LF].

Definition custom_fields : Fields :=
  with_bridges Checked false (u "obfs4") false [] true custom_text.

Definition garbage_fields : Fields :=
  with_bridges Checked false (u "obfs4") false [] true
    (u "notabridge" ++ [Str.LF] ++ u " " ++ [Str.LF]).

(** The store after requested (moat) bridges were saved. *)
Definition moat_settings : gmap string value :=
  list_to_map
    [ ("connection_type", VStr (u "bundled"));
      ("control_port_address", VStr (u "127.0.0.1"));
      ("control_port_port", VStr (u "9051"));
      ("socks_address", VStr (u "127.0.0.1"));
      ("socks_port", VStr (u "9050"));
      ("socket_file_path", VStr (u "/var/run/tor/control"));
      ("auth_type", VStr (u "no_auth"));
      ("auth_password", VStr []);
      ("no_bridges", VBool false);
      ("tor_bridges_use_obfs4", VBool false);
      ("tor_bridges_use_meek_lite_azure", VBool false);
      ("tor_bridges_use_snowflake", VBool false);
      ("tor_bridges_use_moat", VBool true);
      ("tor_bridges_use_moat_bridges", VStr bridge_line);
      ("tor_bridges_use_custom_bridges", VStr []) ]%string.

(** What the builder makes of [obfs4_settings] with bridges switched off. *)
Definition no_bridges_settings : gmap string value :=
  <["no_bridges" := VBool true]> obfs4_settings.

(** What the builder makes of a store when the built-in snowflake bridge
    is selected. *)
Definition select_snowflake (settings : gmap string value)
  : gmap string value :=
  <["tor_bridges_use_custom_bridges" := VStr []]>
    (<["tor_bridges_use_moat" := VBool false]>
       (<["tor_bridges_use_snowflake" := VBool true]>
          (<["tor_bridges_use_meek_lite_azure" := VBool false]>
             (<["tor_bridges_use_obfs4" := VBool false]> settings)))).

(** A tab that has just been opened on the store [settings]. *)
Definition tab (settings : gmap string value) (f : Fields)
    (local authenticated : bool) : Tab := {|
  fields := f;
  old_settings := settings;
  stored := settings;
  local_only := local;
  is_authenticated := authenticated;
  wasCanceled := false;
  tor_con_type := None;
  error_label := Text [];
  buttons_shown := true;
  tor_con_shown := false;
  events := []
|}.

End Sample.

(** The text fields of a built configuration are the texts of the widgets. *)
Definition text_fields_copied (f : Fields) (settings : gmap string value)
  : Prop :=
  get "control_port_address" settings
    = Some (VStr (connection_type_control_port_extras_address f))
  /\ get "control_port_port" settings
    = Some (VStr (connection_type_control_port_extras_port f))
  /\ get "socket_file_path" settings
    = Some (VStr (connection_type_socket_file_extras_path f))
  /\ get "socks_address" settings
    = Some (VStr (connection_type_socks_address f))
  /\ get "socks_port" settings
    = Some (VStr (connection_type_socks_port f))
  /\ get "auth_password" settings
    = Some (VStr (authenticate_password_extras_password f)).

(** ** The writes of [settings_from_fields] *)

(** The fifteen keys that [settings_from_fields] writes. *)
Definition tor_keys : list string :=
  [ "connection_type"; "control_port_address"; "control_port_port";
    "socket_file_path"; "socks_address"; "socks_port"; "auth_type";
    "auth_password"; "no_bridges"; "tor_bridges_use_obfs4";
    "tor_bridges_use_meek_lite_azure"; "tor_bridges_use_snowflake";
    "tor_bridges_use_moat"; "tor_bridges_use_moat_bridges";
    "tor_bridges_use_custom_bridges" ]%string.

(** The calls of [settings.set] as a list, in the order they are made. *)
Definition apply_writes (ws : list (string * value))
    (settings : gmap string value) : gmap string value :=
  foldl (fun settings kv => set kv.1 kv.2 settings) settings ws.

(** The value that the last write to [key] in the list gives it. *)
Fixpoint last_write (key : string) (ws : list (string * value))
  : option value :=
  match ws with
  | [] => None
  | (k, v) :: ws' =>
      match last_write key ws' with
      | Some v' => Some v'
      | None => if decide (k = key) then Some v else None
      end
  end.

Definition connection_type_writes (f : Fields) : list (string * value) :=
  (if connection_type_bundled_radio f
   then [("connection_type"%string, VStr (Str.of_string "bundled"))] else [])
  ++ (if connection_type_automatic_radio f
      then [("connection_type"%string, VStr (Str.of_string "automatic"))]
      else [])
  ++ (if connection_type_control_port_radio f
      then [("connection_type"%string, VStr (Str.of_string "control_port"))]
      else [])
  ++ (if connection_type_socket_file_radio f
      then [("connection_type"%string, VStr (Str.of_string "socket_file"))]
      else []).

Definition text_fields_writes (f : Fields) : list (string * value) :=
  [ ("control_port_address", VStr (connection_type_control_port_extras_address f));
    ("control_port_port", VStr (connection_type_control_port_extras_port f));
    ("socket_file_path", VStr (connection_type_socket_file_extras_path f));
    ("socks_address", VStr (connection_type_socks_address f));
    ("socks_port", VStr (connection_type_socks_port f));
    ("auth_type",
     if bool_decide (authenticate_no_auth_checkbox f = Checked)
     then VStr (Str.of_string "no_auth") else VStr (Str.of_string "password"));
    ("auth_password", VStr (authenticate_password_extras_password f)) ]%string.

Definition builtin_flags (obfs4 meek snowflake : bool)
  : list (string * value) :=
  [ ("tor_bridges_use_obfs4", VBool obfs4);
    ("tor_bridges_use_meek_lite_azure", VBool meek);
    ("tor_bridges_use_snowflake", VBool snowflake) ]%string.

Definition builtin_writes (f : Fields) : list (string * value) :=
  if bridge_builtin_radio f then
    (if bool_decide (bridge_builtin_dropdown f = Str.of_string "obfs4")
     then builtin_flags true false false
     else if bool_decide (bridge_builtin_dropdown f = Str.of_string "meek-azure")
     then builtin_flags false true false
     else if bool_decide (bridge_builtin_dropdown f = Str.of_string "snowflake")
     then builtin_flags false false true
     else [])
    ++ [ ("tor_bridges_use_moat", VBool false);
         ("tor_bridges_use_custom_bridges", VStr []) ]%string
  else [].

Definition moat_writes (f : Fields) : built (list (string * value)) :=
  if bridge_moat_radio f then
    if bool_decide (Str.strip (bridge_moat_textbox f) = []) then
      Invalid gui_settings_moat_bridges_invalid
    else
      Built (builtin_flags false false false
             ++ [ ("tor_bridges_use_moat", VBool true);
                  ("tor_bridges_use_moat_bridges", VStr (bridge_moat_textbox f));
                  ("tor_bridges_use_custom_bridges", VStr []) ]%string)
  else Built [].

Definition custom_writes (f : Fields) : built (list (string * value)) :=
  if bridge_custom_radio f then
    let '(new_bridges, bridges_valid) :=
      validate_bridges (bridge_custom_textbox f) in
    if bridges_valid then
      Built (builtin_flags false false false
             ++ [ ("tor_bridges_use_moat", VBool false);
                  ("tor_bridges_use_custom_bridges",
                   VStr (Str.join [Str.LF] new_bridges ++ [Str.LF])) ]%string)
    else Invalid gui_settings_tor_bridges_invalid
  else Built [].

(** All the writes of [settings_from_fields], or the message it fails with. *)
Definition writes (f : Fields) : built (list (string * value)) :=
  let common := connection_type_writes f ++ text_fields_writes f in
  if bool_decide (bridge_use_checkbox f = Checked) then
    let* moat := moat_writes f in
    let* custom := custom_writes f in
    Built (common ++ [("no_bridges"%string, VBool false)] ++ builtin_writes f
           ++ moat ++ custom)
  else Built (common ++ [("no_bridges"%string, VBool true)]).

(** ** Shapes of bridge lines *)

(** The pattern has no [$]. *)
Fixpoint no_eos (r : Re.regex) : bool :=
  match r with
  | Re.REos => false
  | Re.RCat a b | Re.RAlt a b => no_eos a && no_eos b
  | Re.RRep a _ _ => no_eos a
  | _ => true
  end.

(** A number as the last two patterns want it: one or more ASCII digits. *)
Definition digits (w : list N) : bool := nonempty w && forallb Re.is_digit w.

(** A fingerprint as the last two patterns want it: one or more characters,
    each a digit or an upper-case letter. *)
Definition fingerprint (w : list N) : bool :=
  nonempty w
  && forallb (fun c => Re.is_digit c || (N.leb 65 c && N.leb c 90)) w.

(** ** Reading the bridge selection back *)

(** A flag of the settings is set. *)
Definition flag (key : string) (settings : gmap string value) : bool :=
  bool_decide (get key settings = Some (VBool true)).

(** The custom bridges of the settings are not blank, the test of line 448. *)
Definition has_custom_bridges (settings : gmap string value) : bool :=
  match get "tor_bridges_use_custom_bridges" settings with
  | Some (VStr text) => negb (blank text)
  | _ => false
  end.

(** The name of the connection type that the checked radio button stands
    for, when exactly one is checked. *)
Definition checked_connection_type (f : Fields) : option (list N) :=
  match connection_type_bundled_radio f, connection_type_automatic_radio f,
        connection_type_control_port_radio f,
        connection_type_socket_file_radio f with
  | true, false, false, false => Some (Str.of_string "bundled")
  | false, true, false, false => Some (Str.of_string "automatic")
  | false, false, true, false => Some (Str.of_string "control_port")
  | false, false, false, true => Some (Str.of_string "socket_file")
  | _, _, _, _ => None
  end.

Definition no_connection_type_checked (f : Fields) : bool :=
  negb (connection_type_bundled_radio f || connection_type_automatic_radio f
        || connection_type_control_port_radio f
        || connection_type_socket_file_radio f).

(** ** Invariants of the runs *)

(** How often an event of some kind is in a log. *)
Definition count_events (kind : event -> bool) (log : list event) : nat :=
  length (List.filter kind log).

Definition is_TestOnionNew (e : event) : bool :=
  match e with TestOnionNew => true | _ => false end.

Definition is_TestOnionCleanup (e : event) : bool :=
  match e with TestOnionCleanup => true | _ => false end.

(** No attempt runs and the two buttons are shown, or an attempt runs and
    the connection widget is shown in their place. *)
Definition idle_or_connecting (t : Tab) : Prop :=
  (tor_con_type t = None /\ buttons_shown t = true /\ tor_con_shown t = false)
  \/ (tor_con_type t <> None /\ buttons_shown t = false
      /\ tor_con_shown t = true).

(** What a step adds to the log, with the attempt before and after it. *)
Inductive effect : option con_type -> list event -> option con_type -> Prop :=
| effect_none c : effect c [] c
| effect_test s :
    effect None [TestOnionNew; TorConStart s true] (Some con_test)
| effect_save_reboot s :
    effect None [SettingsSave s; OnionCleanup; TorConStart s false]
      (Some con_save)
| effect_save_close s : effect None [SettingsSave s; CloseThisTab] None
| effect_test_success :
    effect (Some con_test) [AlertTestSuccess; TestOnionCleanup] None
| effect_test_fail : effect (Some con_test) [TestOnionCleanup] None
| effect_save_success : effect (Some con_save) [CloseThisTab] None
| effect_save_done : effect (Some con_save) [] None.

(** The throwaway onions made and not yet cleaned up: one while a test
    attempt runs, none otherwise. *)
Definition test_onions_balanced (t : Tab) : Prop :=
  count_events is_TestOnionNew (events t)
  = (count_events is_TestOnionCleanup (events t)
     + match tor_con_type t with Some con_test => 1 | _ => 0 end)%nat.

(** Every attempt on the main onion comes right after the save of its
    settings and the clean-up of the onion, every test attempt right after
    the making of its throwaway onion. *)
Definition starts_prepared (log : list event) : Prop :=
  forall i settings test,
    log !! i = Some (TorConStart settings test) ->
    if test then
      exists j, i = S j /\ log !! j = Some TestOnionNew
    else
      exists j, i = S (S j) /\ log !! j = Some (SettingsSave settings)
                /\ log !! S j = Some OnionCleanup.

(** The tab closes itself only after a save: before every [close_this_tab]
    in the log there is a [settings.save()]. *)
Definition closes_after_save (log : list event) : Prop :=
  forall i, log !! i = Some CloseThisTab ->
    exists j settings,
      (j < i)%nat /\ log !! j = Some (SettingsSave settings).

(** [closes_after_save], and a save is in the log while an attempt for a
    save runs. *)
Definition saved_before (log : list event) (c : option con_type) : Prop :=
  closes_after_save log
  /\ (c = Some con_save ->
      exists j settings, log !! j = Some (SettingsSave settings)).

(** ** [closeEvent] (lines 861-874) *)

(** [closeEvent] (lines 861-874): whether closing the tab makes OnionShare
    quit. *)
Definition closeEvent (t : Tab) : bool :=
  if negb (local_only t) then
    if negb (is_authenticated t) then true else false
  else false.

(** ** The toggle handlers (lines 456-581) *)

(** The widgets that the toggle handlers show and hide: for each one, whether
    the last of [show()] and [hide()] called on it was [show()]. *)
Record Shown := {
  tor_settings_group_shown : bool;
  connection_type_socks_shown : bool;
  connection_type_bridges_radio_group_shown : bool;
  connection_type_control_port_extras_shown : bool;
  connection_type_socket_file_extras_shown : bool;
  authenticate_password_extras_shown : bool;
  bridge_builtin_dropdown_shown : bool;
  bridge_moat_textbox_options_shown : bool;
  bridge_custom_textbox_options_shown : bool
}.

#[global] Instance Shown_eq_dec : EqDecision Shown.
Proof. solve_decision. Defined.

Definition set_tor_settings_group (b : bool) (v : Shown) : Shown := {|
  tor_settings_group_shown := b;
  connection_type_socks_shown := connection_type_socks_shown v;
  connection_type_bridges_radio_group_shown :=
    connection_type_bridges_radio_group_shown v;
  connection_type_control_port_extras_shown :=
    connection_type_control_port_extras_shown v;
  connection_type_socket_file_extras_shown :=
    connection_type_socket_file_extras_shown v;
  authenticate_password_extras_shown := authenticate_password_extras_shown v;
  bridge_builtin_dropdown_shown := bridge_builtin_dropdown_shown v;
  bridge_moat_textbox_options_shown := bridge_moat_textbox_options_shown v;
  bridge_custom_textbox_options_shown := bridge_custom_textbox_options_shown v
|}.

Definition set_connection_type_socks (b : bool) (v : Shown) : Shown := {|
  tor_settings_group_shown := tor_settings_group_shown v;
  connection_type_socks_shown := b;
  connection_type_bridges_radio_group_shown :=
    connection_type_bridges_radio_group_shown v;
  connection_type_control_port_extras_shown :=
    connection_type_control_port_extras_shown v;
  connection_type_socket_file_extras_shown :=
    connection_type_socket_file_extras_shown v;
  authenticate_password_extras_shown := authenticate_password_extras_shown v;
  bridge_builtin_dropdown_shown := bridge_builtin_dropdown_shown v;
  bridge_moat_textbox_options_shown := bridge_moat_textbox_options_shown v;
  bridge_custom_textbox_options_shown := bridge_custom_textbox_options_shown v
|}.

Definition set_connection_type_bridges_radio_group (b : bool) (v : Shown)
  : Shown := {|
  tor_settings_group_shown := tor_settings_group_shown v;
  connection_type_socks_shown := connection_type_socks_shown v;
  connection_type_bridges_radio_group_shown := b;
  connection_type_control_port_extras_shown :=
    connection_type_control_port_extras_shown v;
  connection_type_socket_file_extras_shown :=
    connection_type_socket_file_extras_shown v;
  authenticate_password_extras_shown := authenticate_password_extras_shown v;
  bridge_builtin_dropdown_shown := bridge_builtin_dropdown_shown v;
  bridge_moat_textbox_options_shown := bridge_moat_textbox_options_shown v;
  bridge_custom_textbox_options_shown := bridge_custom_textbox_options_shown v
|}.

Definition set_connection_type_control_port_extras (b : bool) (v : Shown)
  : Shown := {|
  tor_settings_group_shown := tor_settings_group_shown v;
  connection_type_socks_shown := connection_type_socks_shown v;
  connection_type_bridges_radio_group_shown :=
    connection_type_bridges_radio_group_shown v;
  connection_type_control_port_extras_shown := b;
  connection_type_socket_file_extras_shown :=
    connection_type_socket_file_extras_shown v;
  authenticate_password_extras_shown := authenticate_password_extras_shown v;
  bridge_builtin_dropdown_shown := bridge_builtin_dropdown_shown v;
  bridge_moat_textbox_options_shown := bridge_moat_textbox_options_shown v;
  bridge_custom_textbox_options_shown := bridge_custom_textbox_options_shown v
|}.

Definition set_connection_type_socket_file_extras (b : bool) (v : Shown)
  : Shown := {|
  tor_settings_group_shown := tor_settings_group_shown v;
  connection_type_socks_shown := connection_type_socks_shown v;
  connection_type_bridges_radio_group_shown :=
    connection_type_bridges_radio_group_shown v;
  connection_type_control_port_extras_shown :=
    connection_type_control_port_extras_shown v;
  connection_type_socket_file_extras_shown := b;
  authenticate_password_extras_shown := authenticate_password_extras_shown v;
  bridge_builtin_dropdown_shown := bridge_builtin_dropdown_shown v;
  bridge_moat_textbox_options_shown := bridge_moat_textbox_options_shown v;
  bridge_custom_textbox_options_shown := bridge_custom_textbox_options_shown v
|}.

Definition set_authenticate_password_extras (b : bool) (v : Shown)
  : Shown := {|
  tor_settings_group_shown := tor_settings_group_shown v;
  connection_type_socks_shown := connection_type_socks_shown v;
  connection_type_bridges_radio_group_shown :=
    connection_type_bridges_radio_group_shown v;
  connection_type_control_port_extras_shown :=
    connection_type_control_port_extras_shown v;
  connection_type_socket_file_extras_shown :=
    connection_type_socket_file_extras_shown v;
  authenticate_password_extras_shown := b;
  bridge_builtin_dropdown_shown := bridge_builtin_dropdown_shown v;
  bridge_moat_textbox_options_shown := bridge_moat_textbox_options_shown v;
  bridge_custom_textbox_options_shown := bridge_custom_textbox_options_shown v
|}.

Definition set_bridge_builtin_dropdown (b : bool) (v : Shown) : Shown := {|
  tor_settings_group_shown := tor_settings_group_shown v;
  connection_type_socks_shown := connection_type_socks_shown v;
  connection_type_bridges_radio_group_shown :=
    connection_type_bridges_radio_group_shown v;
  connection_type_control_port_extras_shown :=
    connection_type_control_port_extras_shown v;
  connection_type_socket_file_extras_shown :=
    connection_type_socket_file_extras_shown v;
  authenticate_password_extras_shown := authenticate_password_extras_shown v;
  bridge_builtin_dropdown_shown := b;
  bridge_moat_textbox_options_shown := bridge_moat_textbox_options_shown v;
  bridge_custom_textbox_options_shown := bridge_custom_textbox_options_shown v
|}.

Definition set_bridge_moat_textbox_options (b : bool) (v : Shown) : Shown := {|
  tor_settings_group_shown := tor_settings_group_shown v;
  connection_type_socks_shown := connection_type_socks_shown v;
  connection_type_bridges_radio_group_shown :=
    connection_type_bridges_radio_group_shown v;
  connection_type_control_port_extras_shown :=
    connection_type_control_port_extras_shown v;
  connection_type_socket_file_extras_shown :=
    connection_type_socket_file_extras_shown v;
  authenticate_password_extras_shown := authenticate_password_extras_shown v;
  bridge_builtin_dropdown_shown := bridge_builtin_dropdown_shown v;
  bridge_moat_textbox_options_shown := b;
  bridge_custom_textbox_options_shown := bridge_custom_textbox_options_shown v
|}.

Definition set_bridge_custom_textbox_options (b : bool) (v : Shown)
  : Shown := {|
  tor_settings_group_shown := tor_settings_group_shown v;
  connection_type_socks_shown := connection_type_socks_shown v;
  connection_type_bridges_radio_group_shown :=
    connection_type_bridges_radio_group_shown v;
  connection_type_control_port_extras_shown :=
    connection_type_control_port_extras_shown v;
  connection_type_socket_file_extras_shown :=
    connection_type_socket_file_extras_shown v;
  authenticate_password_extras_shown := authenticate_password_extras_shown v;
  bridge_builtin_dropdown_shown := bridge_builtin_dropdown_shown v;
  bridge_moat_textbox_options_shown := bridge_moat_textbox_options_shown v;
  bridge_custom_textbox_options_shown := b
|}.

(** [connection_type_bundled_toggled] (lines 456-464). *)
Definition connection_type_bundled_toggled (checked : bool) (v : Shown)
  : Shown :=
  if checked then
    let v := set_tor_settings_group false v in
    let v := set_connection_type_socks false v in
    set_connection_type_bridges_radio_group true v
  else v.

(** [bridge_builtin_radio_toggled] (lines 477-484). *)
Definition bridge_builtin_radio_toggled (checked : bool) (v : Shown)
  : Shown :=
  if checked then
    let v := set_bridge_builtin_dropdown true v in
    let v := set_bridge_custom_textbox_options false v in
    set_bridge_moat_textbox_options false v
  else v.

(** [bridge_moat_radio_toggled] (lines 499-506). *)
Definition bridge_moat_radio_toggled (checked : bool) (v : Shown) : Shown :=
  if checked then
    let v := set_bridge_builtin_dropdown false v in
    let v := set_bridge_custom_textbox_options false v in
    set_bridge_moat_textbox_options true v
  else v.

(** [bridge_custom_radio_toggled] (lines 526-533). *)
Definition bridge_custom_radio_toggled (checked : bool) (v : Shown) : Shown :=
  if checked then
    let v := set_bridge_builtin_dropdown false v in
    let v := set_bridge_moat_textbox_options false v in
    set_bridge_custom_textbox_options true v
  else v.

(** [connection_type_automatic_toggled] (lines 535-543). *)
Definition connection_type_automatic_toggled (checked : bool) (v : Shown)
  : Shown :=
  if checked then
    let v := set_tor_settings_group false v in
    let v := set_connection_type_socks false v in
    set_connection_type_bridges_radio_group false v
  else v.

(** [connection_type_control_port_toggled] (lines 545-557). *)
Definition connection_type_control_port_toggled (checked : bool) (v : Shown)
  : Shown :=
  if checked then
    let v := set_tor_settings_group true v in
    let v := set_connection_type_control_port_extras true v in
    let v := set_connection_type_socks true v in
    set_connection_type_bridges_radio_group false v
  else set_connection_type_control_port_extras false v.

(** [connection_type_socket_file_toggled] (lines 559-571). *)
Definition connection_type_socket_file_toggled (checked : bool) (v : Shown)
  : Shown :=
  if checked then
    let v := set_tor_settings_group true v in
    let v := set_connection_type_socket_file_extras true v in
    let v := set_connection_type_socks true v in
    set_connection_type_bridges_radio_group false v
  else set_connection_type_socket_file_extras false v.

(** [authenticate_no_auth_toggled] (lines 573-581). *)
Definition authenticate_no_auth_toggled (checked : bool) (v : Shown)
  : Shown :=
  if checked then set_authenticate_password_extras false v
  else set_authenticate_password_extras true v.

(** The buttons whose [toggled] signal is connected to a handler. *)
Inductive button :=
  | Bundled | Automatic | ControlPort | SocketFile | NoAuth
  | Builtin | Moat | Custom.

#[global] Instance button_eq_dec : EqDecision button.
Proof. solve_decision. Defined.

(** The connections of the [toggled] signals (lines 58, 92, 107, 128, 169,
    177, 207 and 248). *)
Definition toggled (b : button) : bool -> Shown -> Shown :=
  match b with
  | Bundled => connection_type_bundled_toggled
  | Automatic => connection_type_automatic_toggled
  | ControlPort => connection_type_control_port_toggled
  | SocketFile => connection_type_socket_file_toggled
  | NoAuth => authenticate_no_auth_toggled
  | Builtin => bridge_builtin_radio_toggled
  | Moat => bridge_moat_radio_toggled
  | Custom => bridge_custom_radio_toggled
  end.

(** A sequence of [toggled] signals, each with its [checked] argument. *)
Definition toggles (signals : list (button * bool)) (v : Shown) : Shown :=
  foldl (fun v signal => toggled signal.1 signal.2 v) v signals.

Definition is_connection_type (b : button) : bool :=
  match b with
  | Bundled | Automatic | ControlPort | SocketFile => true
  | _ => false
  end.

Definition is_bridge_type (b : button) : bool :=
  match b with
  | Builtin | Moat | Custom => true
  | _ => false
  end.

(** The widgets as [__init__] leaves them before it calls [reload_settings]:
    the ones it hides (lines 122, 143, 201, 227, 242, 266, 279 and 308), and
    the dropdown, which it does not. *)
Definition initially_shown : Shown := {|
  tor_settings_group_shown := false;
  connection_type_socks_shown := false;
  connection_type_bridges_radio_group_shown := false;
  connection_type_control_port_extras_shown := false;
  connection_type_socket_file_extras_shown := false;
  authenticate_password_extras_shown := false;
  bridge_builtin_dropdown_shown := true;
  bridge_moat_textbox_options_shown := false;
  bridge_custom_textbox_options_shown := false
|}.

(** The extra fields of the control port and of the socket file are shown
    for the connection type [selected], and for no other. *)
Definition extras_match (selected : option button) (v : Shown) : Prop :=
  connection_type_control_port_extras_shown v
    = bool_decide (selected = Some ControlPort)
  /\ connection_type_socket_file_extras_shown v
     = bool_decide (selected = Some SocketFile).

(** * Properties *)

(** ** Strings *)

Lemma lstrip_nil_iff s : Str.lstrip s = [] <-> blank s = true.
Proof.
  unfold blank. induction s as [|c s IH]; simpl; [tauto|].
  destruct (Str.is_space c); simpl; [exact IH|]. split; discriminate.
Qed.

Lemma lstrip_head s c r : Str.lstrip s = c :: r -> Str.is_space c = false.
Proof.
  induction s as [|x s IH]; simpl; [discriminate|].
  destruct (Str.is_space x) eqn:E; [exact IH|]. intros [= <- _]. exact E.
Qed.

Lemma blank_rev s : blank (rev s) = blank s.
Proof.
  unfold blank. induction s as [|c s IH]; simpl; [reflexivity|].
  rewrite forallb_app, IH. simpl. rewrite andb_true_r. apply andb_comm.
Qed.

(** [s.strip() == ""] says that [s] is blank. *)
Lemma strip_nil_iff s : Str.strip s = [] <-> blank s = true.
Proof.
  unfold Str.strip, Str.rstrip. split.
  - intros H. apply (f_equal (@rev N)) in H. rewrite rev_involutive in H.
    simpl in H. apply lstrip_nil_iff in H. rewrite blank_rev in H.
    destruct (Str.lstrip s) as [|c r] eqn:E.
    + apply lstrip_nil_iff. exact E.
    + apply lstrip_head in E. simpl in H. rewrite E in H. discriminate.
  - intros H. apply lstrip_nil_iff in H. rewrite H. reflexivity.
Qed.

(** ** Patterns: the matcher finds what the pattern reads *)

Module ReFacts.
Import Re.

(** What is left is a suffix of the text. *)
Lemma matches_suffix r s s' : matches r s s' -> exists p, s = p ++ s'.
Proof.
  induction 1 as [s|c s|x s _|items x s _|s _
                 |a b s s1 s2 _ [p1 ->] _ [p2 ->]
                 |a b s s' _ IH|a b s s' _ IH|a hi s
                 |a lo hi s s1 s2 _ _ [p1 ->] _ [p2 ->]];
    try (exists []; reflexivity);
    try (eexists [_]; reflexivity);
    try exact IH;
    exists (p1 ++ p2); rewrite app_assoc; reflexivity.
Qed.

Lemma suffix_length {A} (p s s' : list A) :
  s = p ++ s' -> (length s' <= length s)%nat
                 /\ (length s' = length s -> s' = s).
Proof.
  intros ->. rewrite length_app. split; [lia|].
  intros H. destruct p; [reflexivity|]. simpl in H. lia.
Qed.

Section Repeat.
Variable m : list N -> (list N -> bool) -> bool.
Variable R : list N -> list N -> Prop.
Hypothesis m_spec :
  forall s k, m s k = true <-> exists s', R s s' /\ k s' = true.
Hypothesis R_suffix : forall s s', R s s' -> exists p, s = p ++ s'.

Lemma iter_suffix n s s' : iter R n s s' -> exists p, s = p ++ s'.
Proof.
  revert s. induction n as [|n IH]; simpl; intros s.
  - intros ->. exists []. reflexivity.
  - intros (s1 & H1 & H2). destruct (R_suffix _ _ H1) as [p1 ->].
    destruct (IH _ H2) as [p2 ->]. exists (p1 ++ p2).
    rewrite app_assoc. reflexivity.
Qed.

Lemma iter_add a b s s' :
  iter R (a + b) s s' <-> exists s1, iter R a s s1 /\ iter R b s1 s'.
Proof.
  revert s. induction a as [|a IH]; simpl; intros s.
  - split; [intros H; exists s; auto|intros (s1 & -> & H); exact H].
  - split.
    + intros (s1 & H1 & H2). apply IH in H2. destruct H2 as (s2 & H2 & H3).
      exists s2. split; [exists s1; auto|exact H3].
    + intros (s2 & (s1 & H1 & H2) & H3). exists s1. split; [exact H1|].
      apply IH. exists s2. auto.
Qed.

Lemma times_spec n s k :
  times m n s k = true <-> exists s', iter R n s s' /\ k s' = true.
Proof.
  revert s. induction n as [|n IH]; simpl; intros s.
  - split; [intros H; exists s; auto|intros (s' & -> & H); exact H].
  - rewrite m_spec. split.
    + intros (s1 & H1 & H2). apply IH in H2. destruct H2 as (s' & H2 & H3).
      exists s'. split; [exists s1; auto|exact H3].
    + intros (s' & (s1 & H1 & H2) & H3). exists s1. split; [exact H1|].
      apply IH. exists s'. auto.
Qed.

Lemma upto_spec n s k :
  upto m n s k = true
  <-> exists j s', (j <= n)%nat /\ iter R j s s' /\ k s' = true.
Proof.
  revert s. induction n as [|n IH]; simpl; intros s.
  - split.
    + intros H. exists 0%nat, s. simpl. auto.
    + intros (j & s' & Hj & Hi & Hk). assert (j = 0%nat) as -> by lia.
      simpl in Hi. subst s'. exact Hk.
  - destruct (m s (fun s' => upto m n s' k)) eqn:E.
    + split; [|reflexivity]. intros _. apply m_spec in E.
      destruct E as (s1 & H1 & H2). apply IH in H2.
      destruct H2 as (j & s' & Hj & Hi & Hk).
      exists (S j), s'. split; [lia|]. split; [exists s1; auto|exact Hk].
    + split.
      * intros H. exists 0%nat, s. simpl. split; [lia|auto].
      * intros (j & s' & Hj & Hi & Hk). destruct j as [|j].
        -- simpl in Hi. subst s'. exact Hk.
        -- destruct Hi as (s1 & H1 & H2).
           assert (m s (fun s' => upto m n s' k) = true); [|congruence].
           apply m_spec. exists s1. split; [exact H1|].
           apply IH. exists j, s'. split; [lia|auto].
Qed.

Lemma star_sound fuel s k :
  star m fuel s k = true -> exists j s', iter R j s s' /\ k s' = true.
Proof.
  revert s. induction fuel as [|fuel IH]; simpl; intros s.
  - intros H. exists 0%nat, s. simpl. auto.
  - destruct (m s _) eqn:E.
    + intros _. apply m_spec in E. destruct E as (s1 & H1 & H2).
      destruct (Nat.ltb _ _); [|discriminate]. apply IH in H2.
      destruct H2 as (j & s' & Hi & Hk).
      exists (S j), s'. split; [exists s1; auto|exact Hk].
    + intros H. exists 0%nat, s. simpl. auto.
Qed.

Lemma star_complete fuel j s s' k :
  (length s <= fuel)%nat ->
  iter R j s s' -> k s' = true -> star m fuel s k = true.
Proof.
  revert j s. induction fuel as [|fuel IH]; intros j s Hlen Hi Hk.
  - simpl. destruct (iter_suffix _ _ _ Hi) as [p Hp].
    apply suffix_length in Hp. destruct Hp as [Hle Heq].
    rewrite <- (Heq ltac:(lia)). exact Hk.
  - revert s Hlen Hi. induction j as [|j IHj]; intros s Hlen Hi.
    + simpl in Hi. subst s'. simpl. rewrite Hk. destruct (m s _); reflexivity.
    + destruct Hi as (s1 & H1 & H2). simpl.
      destruct (R_suffix _ _ H1) as [p Hp].
      apply suffix_length in Hp. destruct Hp as [Hle Heq].
      destruct (Nat.ltb (length s1) (length s)) eqn:Elt.
      * assert (Hm : m s (fun s' => if Nat.ltb (length s') (length s)
                                    then star m fuel s' k else false) = true).
        { apply m_spec. exists s1. split; [exact H1|]. rewrite Elt.
          apply Nat.ltb_lt in Elt. apply (IH j); [lia|exact H2|exact Hk]. }
        rewrite Hm. reflexivity.
      * apply Nat.ltb_ge in Elt. rewrite (Heq ltac:(lia)) in H2.
        apply IHj; [exact Hlen|exact H2].
Qed.

End Repeat.

(** A repetition reads its body some number of times within the bounds. *)
Lemma matches_rep a lo hi s s' :
  matches (RRep a lo hi) s s'
  <-> exists n, (lo <= n)%nat /\ (forall h, hi = Some h -> (n <= h)%nat)
                /\ iter (matches a) n s s'.
Proof.
  split.
  - intros H. remember (RRep a lo hi) as r eqn:E. revert lo hi E.
    induction H as [| | | | | | | |a' hi' s
                   |a' lo' hi' s s1 s2 Hhi H1 _ _ IH]; intros lo hi E;
      try discriminate; injection E as E1 E2 E3; subst.
    + exists 0%nat. simpl. split; [lia|]. split; [intros; lia|reflexivity].
    + destruct (IH _ _ eq_refl) as (n & Hlo & Hh & Hi).
      exists (S n). split; [lia|]. split.
      * intros h ->. specialize (Hh (pred h) eq_refl).
        destruct h; [congruence|]. simpl in Hh. lia.
      * exists s1. auto.
  - intros (n & Hlo & Hh & Hi). revert lo hi s Hlo Hh Hi.
    induction n as [|n IH]; intros lo hi s Hlo Hh Hi.
    + simpl in Hi. subst s'. assert (lo = 0%nat) as -> by lia.
      apply M_rep_done.
    + destruct Hi as (s1 & H1 & H2). eapply M_rep_more; [|exact H1|].
      * intros ->. specialize (Hh _ eq_refl). lia.
      * apply IH; [lia| |exact H2].
        intros h Eh. destruct hi as [h'|]; [|discriminate].
        injection Eh as <-. specialize (Hh _ eq_refl). lia.
Qed.

(** The matcher accepts exactly when some reading of the pattern leaves a
    rest that the continuation accepts. *)
Theorem accepts_spec r :
  wf r = true ->
  forall s k, accepts r s k = true <-> exists s', matches r s s' /\ k s' = true.
Proof.
  induction r as [|c| |items| |a IHa b IHb|a IHa b IHb|a IHa lo hi];
    intros Hwf s k; simpl.
  - split; [intros H; exists s; split; [constructor|exact H]|].
    intros (s' & Hm & Hk). inversion Hm; subst. exact Hk.
  - destruct s as [|x s]; [split; [discriminate|]|].
    + intros (s' & Hm & _). inversion Hm.
    + destruct (N.eqb x c) eqn:E.
      * apply N.eqb_eq in E. subst x. split.
        -- intros H. exists s. split; [constructor|exact H].
        -- intros (s' & Hm & Hk). inversion Hm; subst. exact Hk.
      * split; [discriminate|]. intros (s' & Hm & _). inversion Hm; subst.
        rewrite N.eqb_refl in E. discriminate.
  - destruct s as [|x s]; [split; [discriminate|]|].
    + intros (s' & Hm & _). inversion Hm.
    + destruct (N.eqb x Str.LF) eqn:E.
      * apply N.eqb_eq in E. split; [discriminate|].
        intros (s' & Hm & _). inversion Hm; subst. congruence.
      * apply N.eqb_neq in E. split.
        -- intros H. exists s. split; [constructor; exact E|exact H].
        -- intros (s' & Hm & Hk). inversion Hm; subst. exact Hk.
  - destruct s as [|x s]; [split; [discriminate|]|].
    + intros (s' & Hm & _). inversion Hm.
    + destruct (existsb (cset_item_mem x) items) eqn:E.
      * split.
        -- intros H. exists s. split; [constructor; exact E|exact H].
        -- intros (s' & Hm & Hk). inversion Hm; subst. exact Hk.
      * split; [discriminate|]. intros (s' & Hm & _). inversion Hm; subst.
        congruence.
  - destruct (at_end s) eqn:E.
    + split; [intros H; exists s; split; [constructor; exact E|exact H]|].
      intros (s' & Hm & Hk). inversion Hm; subst. exact Hk.
    + split; [discriminate|]. intros (s' & Hm & _). inversion Hm; subst.
      congruence.
  - simpl in Hwf. apply andb_true_iff in Hwf. destruct Hwf as [Ha Hb].
    rewrite (IHa Ha). split.
    + intros (s1 & H1 & H2). apply (IHb Hb) in H2.
      destruct H2 as (s2 & H2 & Hk). exists s2. split; [|exact Hk].
      econstructor; eassumption.
    + intros (s2 & Hm & Hk). inversion Hm; subst.
      eexists. split; [eassumption|]. apply (IHb Hb). eauto.
  - simpl in Hwf. apply andb_true_iff in Hwf. destruct Hwf as [Ha Hb].
    destruct (accepts a s k) eqn:E.
    + split; [|reflexivity]. intros _. apply (IHa Ha) in E.
      destruct E as (s' & Hm & Hk). exists s'. split; [|exact Hk].
      apply M_alt_l. exact Hm.
    + rewrite (IHb Hb). split.
      * intros (s' & Hm & Hk). exists s'. split; [|exact Hk].
        apply M_alt_r. exact Hm.
      * intros (s' & Hm & Hk). inversion Hm; subst; [|eauto].
        assert (accepts a s k = true); [|congruence].
        apply (IHa Ha). eauto.
  - assert (Ha : wf a = true).
    { simpl in Hwf. destruct hi; [apply andb_true_iff in Hwf; tauto|exact Hwf]. }
    specialize (IHa Ha).
    rewrite (times_spec _ _ IHa).
    split.
    + intros (s1 & H1 & H2). destruct hi as [h|].
      * apply (upto_spec _ _ IHa) in H2.
        destruct H2 as (j & s' & Hj & Hi & Hk).
        exists s'. split; [|exact Hk]. apply matches_rep.
        exists (lo + j)%nat. split; [lia|]. split.
        -- intros h' [= <-]. simpl in Hwf. apply andb_true_iff in Hwf.
           destruct Hwf as [Hle _]. apply Nat.leb_le in Hle. lia.
        -- apply iter_add. eauto.
      * apply (star_sound _ _ IHa) in H2.
        destruct H2 as (j & s' & Hi & Hk).
        exists s'. split; [|exact Hk]. apply matches_rep.
        exists (lo + j)%nat. split; [lia|]. split; [discriminate|].
        apply iter_add. eauto.
    + intros (s' & Hm & Hk). apply matches_rep in Hm.
      destruct Hm as (n & Hlo & Hh & Hi).
      replace n with (lo + (n - lo))%nat in Hi by lia.
      apply iter_add in Hi. destruct Hi as (s1 & H1 & H2).
      exists s1. split; [exact H1|]. destruct hi as [h|].
      * apply (upto_spec _ _ IHa). exists (n - lo)%nat, s'.
        specialize (Hh _ eq_refl). split; [lia|auto].
      * eapply (star_complete _ _ IHa); [|reflexivity|exact H2|exact Hk].
        apply matches_suffix.
Qed.

(** [re.match] succeeds exactly when the pattern reads a prefix of the
    text. *)
Corollary re_match_spec r text :
  wf r = true ->
  re_match r text = true <-> exists rest, matches r text rest.
Proof.
  intros Hwf. unfold re_match. rewrite (accepts_spec r Hwf). split.
  - intros (s' & Hm & _). eauto.
  - intros (s' & Hm). eauto.
Qed.

(** A reading that starts on the character [c] either consumes nothing or
    starts with a character of [first]. *)
Lemma matches_first r t s' :
  matches r t s' ->
  forall c s, t = c :: s ->
  (s' = t /\ nullable r = true) \/ first r c = true.
Proof.
  induction 1 as [s|x s|x s Hx|items x s Hx|s _
                 |a b s s1 s2 _ IH1 _ IH2
                 |a b s s' _ IH|a b s s' _ IH|a hi s
                 |a lo hi s s1 s2 _ _ IH1 _ IH2];
    intros c s0 E; simpl.
  - left. auto.
  - injection E as -> ->. right. apply N.eqb_refl.
  - injection E as -> ->. right. apply negb_true_iff, N.eqb_neq, Hx.
  - injection E as -> ->. right. exact Hx.
  - left. auto.
  - destruct (IH1 _ _ E) as [[-> Ha]|Ha]; [|rewrite Ha; auto].
    destruct (IH2 _ _ E) as [[-> Hb]|Hb].
    + left. rewrite Ha, Hb. auto.
    + right. rewrite Ha, Hb. apply orb_true_r.
  - destruct (IH _ _ E) as [[-> Ha]|Ha]; [left|right]; rewrite Ha; auto.
  - destruct (IH _ _ E) as [[-> Hb]|Hb]; [left|right]; rewrite Hb;
      auto using orb_true_r.
  - left. auto.
  - destruct (IH1 _ _ E) as [[-> Ha]|Ha]; [|auto].
    destruct (IH2 _ _ E) as [[-> Hb]|Hb]; [|auto].
    left. split; [reflexivity|]. destruct lo; auto.
Qed.

(** A pattern that cannot read nothing matches only a text that starts with
    a character of [first]. *)
Lemma re_match_first r c s :
  wf r = true -> nullable r = false ->
  re_match r (c :: s) = true -> first r c = true.
Proof.
  intros Hwf Hn H. apply re_match_spec in H; [|exact Hwf].
  destruct H as [rest H].
  destruct (matches_first _ _ _ H c s eq_refl) as [[_ Hn']|Hf];
    [congruence|exact Hf].
Qed.

End ReFacts.

(** ** The four patterns *)

Lemma ipv4_pattern_ast : ipv4_pattern = Some Ast.ipv4.
Proof. compute_done. Qed.
Lemma ipv6_pattern_ast : ipv6_pattern = Some Ast.ipv6.
Proof. compute_done. Qed.
Lemma meek_lite_pattern_ast : meek_lite_pattern = Some Ast.meek_lite.
Proof. compute_done. Qed.
Lemma snowflake_pattern_ast : snowflake_pattern = Some Ast.snowflake.
Proof. compute_done. Qed.

(** The patterns on some lines.  The fingerprint of the first pattern must
    be followed by at least one more character, which may be its own last
    one; the last two patterns do not look at what follows the fingerprint
    and take any numbers for the address. *)

Example ipv4_line :
  Re.compiled_match ipv4_pattern Sample.bridge_line = true
  /\ Re.compiled_match ipv4_pattern (Sample.u "192.0.2.1:443 AB") = true
  /\ Re.compiled_match ipv4_pattern (Sample.u "192.0.2.1:443 A") = false
  /\ Re.compiled_match ipv4_pattern (Sample.u "256.0.2.1:443 ABCDEF") = false
  /\ Re.compiled_match ipv4_pattern (Sample.u " 192.0.2.1:443 ABCDEF") = false.
Proof. repeat split; compute_done. Qed.

Example ipv6_line :
  Re.compiled_match ipv6_pattern
    (Sample.u "obfs4 [2001:db8::1]:9001 0123456789ABCDEF cert=abc iat-mode=0")
  = true.
Proof. compute_done. Qed.

Example meek_lite_line :
  Re.compiled_match meek_lite_pattern
    (Sample.u "meek_lite 192.0.2.2:2 97700DFE9F483596DDA6264C4D7DF7641E1E39CE url=https://meek.azureedge.net/ front=ajax.aspnetcdn.com")
  = true.
Proof. compute_done. Qed.

Example snowflake_line :
  Re.compiled_match snowflake_pattern
    (Sample.u "snowflake 192.0.2.3:1 2B280B23E1107BB62ABFC40DDCC8824814F80A72")
  = true
  /\ Re.compiled_match snowflake_pattern
       (Sample.u "snowflake 999.0.2.3:1 2B280B23E1107BB62ABFC40DDCC8824814F80A72 and more")
     = true.
Proof. repeat split; compute_done. Qed.

Example garbage_line : bridge_matches (Sample.u "notabridge") = false.
Proof. compute_done. Qed.

Lemma bridge_matches_nil : bridge_matches [] = false.
Proof. vm_compute. reflexivity. Qed.

(** No bridge pattern starts with white space. *)
Lemma space_not_first c :
  Str.is_space c = true ->
  Re.first Ast.ipv4 c = false /\ Re.first Ast.ipv6 c = false
  /\ Re.first Ast.meek_lite c = false /\ Re.first Ast.snowflake c = false.
Proof.
  intros Hc.
  assert (H : forall x, (33 <= x <= 127) -> N.eqb c x = false).
  { intros x Hx. apply N.eqb_neq. intros ->. revert Hc. unfold Str.is_space.
    rewrite !orb_true_iff, !andb_true_iff, !N.leb_le, !N.eqb_eq. lia. }
  assert (H' : forall lo hi, (33 <= lo) -> (hi <= 127) ->
                 N.leb lo c && N.leb c hi = false).
  { intros lo hi Hlo Hhi. apply andb_false_iff.
    rewrite !N.leb_gt. revert Hc. unfold Str.is_space.
    rewrite !orb_true_iff, !andb_true_iff, !N.leb_le, !N.eqb_eq. lia. }
  cbv -[N.eqb N.leb].
  unfold andb in H'. rewrite !H by lia. rewrite !H' by lia. auto.
Qed.

Lemma bridge_matches_space c s :
  Str.is_space c = true -> bridge_matches (c :: s) = false.
Proof.
  intros Hc. destruct (space_not_first c Hc) as (H4 & H6 & Hm & Hs).
  unfold bridge_matches.
  rewrite ipv4_pattern_ast, ipv6_pattern_ast, meek_lite_pattern_ast,
    snowflake_pattern_ast.
  unfold Re.compiled_match.
  assert (F : forall r, Re.wf r = true -> Re.nullable r = false ->
                Re.first r c = false -> Re.re_match r (c :: s) = false).
  { intros r Hwf Hn Hf. destruct (Re.re_match r (c :: s)) eqn:E; [|reflexivity].
    apply ReFacts.re_match_first in E; [congruence|exact Hwf|exact Hn]. }
  rewrite !F by (assumption || (vm_compute; reflexivity)). reflexivity.
Qed.

Lemma blank_matches_not bridge :
  blank bridge = true -> bridge_matches bridge = false.
Proof.
  destruct bridge as [|c s]; [intros _; apply bridge_matches_nil|].
  unfold blank. simpl. intros H. apply andb_true_iff in H.
  apply bridge_matches_space. tauto.
Qed.

Lemma split_blank sep s :
  blank s = true -> forallb blank (Str.split sep s) = true.
Proof.
  unfold blank at 1. induction s as [|c s IH]; simpl; [reflexivity|].
  intros H. apply andb_true_iff in H. destruct H as [Hc Hs].
  specialize (IH Hs). destruct (N.eqb c sep); simpl; [exact IH|].
  destruct (Str.split sep s) as [|l ls]; simpl in *.
  - unfold blank. simpl. rewrite Hc. reflexivity.
  - apply andb_true_iff in IH. destruct IH as [Hl Hls].
    unfold blank in *. simpl. rewrite Hc, Hl, Hls. reflexivity.
Qed.

(** Blank text has no line that matches. *)
Lemma blank_text_no_match textbox :
  blank textbox = true ->
  existsb bridge_matches (Str.split Str.LF textbox) = false.
Proof.
  intros H. apply (split_blank Str.LF) in H.
  induction (Str.split Str.LF textbox) as [|l ls IH]; simpl; [reflexivity|].
  simpl in H. apply andb_true_iff in H. destruct H as [Hl Hls].
  rewrite (blank_matches_not l Hl), (IH Hls). reflexivity.
Qed.


(** ** The validation loop *)

Lemma accepted_line_matches bridge :
  accepted_line bridge = bridge_matches bridge.
Proof.
  unfold accepted_line. destruct bridge; simpl; [|reflexivity].
  symmetry. apply bridge_matches_nil.
Qed.

Lemma check_bridge_accepted new_bridges bridges_valid bridge :
  check_bridge (new_bridges, bridges_valid) bridge
  = if accepted_line bridge then (new_bridges ++ [bridge], true)
    else (new_bridges, bridges_valid).
Proof.
  unfold check_bridge, accepted_line.
  destruct (nonempty bridge), (bridge_matches bridge); reflexivity.
Qed.

Lemma foldl_check_bridge bridges new_bridges bridges_valid :
  foldl check_bridge (new_bridges, bridges_valid) bridges
  = (new_bridges ++ List.filter accepted_line bridges,
     bridges_valid || existsb accepted_line bridges).
Proof.
  revert new_bridges bridges_valid.
  induction bridges as [|b bs IH]; intros acc v; cbn [foldl List.filter existsb].
  - rewrite app_nil_r, orb_false_r. reflexivity.
  - rewrite check_bridge_accepted.
    destruct (accepted_line b); rewrite IH.
    + rewrite <- app_assoc, orb_true_r. reflexivity.
    + reflexivity.
Qed.

Lemma validate_bridges_filter textbox :
  validate_bridges textbox
  = (List.filter accepted_line (Str.split Str.LF textbox),
     existsb accepted_line (Str.split Str.LF textbox)).
Proof. unfold validate_bridges. apply foldl_check_bridge. Qed.

Lemma existsb_accepted_line bridges :
  existsb accepted_line bridges = existsb bridge_matches bridges.
Proof.
  induction bridges as [|b bs IH]; simpl; [reflexivity|].
  rewrite accepted_line_matches, IH. reflexivity.
Qed.

Lemma filter_nil_existsb {A} (p : A -> bool) l :
  List.filter p l = [] <-> existsb p l = false.
Proof.
  induction l as [|x l IH]; simpl; [tauto|].
  destruct (p x); simpl; [|exact IH]. split; discriminate.
Qed.

(** ** Reading a built settings object *)

Lemma get_set_eq key val settings : get key (set key val settings) = Some val.
Proof. apply lookup_insert_eq. Qed.

Lemma get_set_ne key key' val settings :
  key <> key' -> get key' (set key val settings) = get key' settings.
Proof. intros H. apply lookup_insert_ne. exact H. Qed.

(** Look up a key through a pile of [set]s. *)
Ltac lookup_set :=
  unfold set_text_fields, set_connection_type, set_builtin_bridges;
  repeat match goal with
         | |- context [if ?b then _ else _] => destruct b
         end;
  repeat (rewrite get_set_ne by discriminate);
  try rewrite get_set_eq; try reflexivity.

(** The connection type and the text fields leave the bridge fields and
    [no_bridges] alone. *)
Lemma get_text_fields_bridge loaded f key :
  In key ("no_bridges"%string :: bridge_keys) ->
  get key (set_text_fields f (set_connection_type f loaded)) = get key loaded.
Proof.
  simpl. intros H.
  repeat (destruct H as [<- | H]; [lookup_set|]). destruct H.
Qed.

Lemma settings_from_fields_unchecked loaded f :
  bridge_use_checkbox f <> Checked ->
  settings_from_fields loaded f
  = Built (set "no_bridges" (VBool true)
             (set_text_fields f (set_connection_type f loaded))).
Proof.
  intros H. unfold settings_from_fields.
  rewrite bool_decide_eq_false_2 by exact H. reflexivity.
Qed.

Lemma settings_from_fields_checked loaded f :
  bridge_use_checkbox f = Checked ->
  settings_from_fields loaded f
  = let* settings :=
      set_moat_bridges f
        (set_builtin_bridges f
           (set "no_bridges" (VBool false)
              (set_text_fields f (set_connection_type f loaded)))) in
    set_custom_bridges f settings.
Proof.
  intros H. unfold settings_from_fields.
  rewrite bool_decide_eq_true_2 by exact H. reflexivity.
Qed.

(** ** Bridges switched off *)

(** C4 as the spec has it fails: with the checkbox unchecked the bridge
    fields of the store come through as they were.  Here the store holds
    built-in obfs4 bridges and the text of requested bridges, and the built
    configuration still has both. *)
Lemma unchecked_keeps_bridge_fields :
  settings_from_fields Sample.obfs4_settings Sample.no_bridges_fields
  = Built Sample.no_bridges_settings
  /\ get "no_bridges" Sample.no_bridges_settings = Some (VBool true)
  /\ get "tor_bridges_use_obfs4" Sample.no_bridges_settings
     = Some (VBool true)
  /\ get "tor_bridges_use_moat_bridges" Sample.no_bridges_settings
     = Some (VStr (Sample.u "obfs4 192.0.2.7:443 0123456789ABCDEF0123456789ABCDEF01234567 cert=abc iat-mode=0")).
Proof. repeat split; compute_done. Qed.

(** C4, amended: with the "use bridges" checkbox unchecked the builder
    succeeds, the built configuration has [no_bridges = True], and each of
    the six other bridge fields has the value that was loaded from the
    store. *)
Theorem unchecked_sets_no_bridges loaded f :
  bridge_use_checkbox f <> Checked ->
  exists settings,
    settings_from_fields loaded f = Built settings
    /\ get "no_bridges" settings = Some (VBool true)
    /\ forall key, In key bridge_keys -> get key settings = get key loaded.
Proof.
  intros H. eexists. split; [apply settings_from_fields_unchecked, H|].
  split; [apply get_set_eq|].
  intros key Hk. rewrite get_set_ne.
  - apply get_text_fields_bridge. right. exact Hk.
  - intros <-. simpl in Hk. intuition discriminate.
Qed.

Lemma unchecked_sets_no_bridges_witness :
  exists settings,
    settings_from_fields Sample.obfs4_settings Sample.no_bridges_fields
    = Built settings
    /\ get "no_bridges" settings = Some (VBool true)
    /\ forall key, In key bridge_keys ->
         get key settings = get key Sample.obfs4_settings.
Proof.
  apply (unchecked_sets_no_bridges Sample.obfs4_settings Sample.no_bridges_fields).
  simpl. discriminate.
Defined.

(** ** Bridges switched on, no radio button checked *)

(** C9: with the checkbox checked and none of the three radio buttons
    checked, the builder succeeds, no bridge text is looked at (the result
    does not depend on the two textboxes or on the dropdown: it is the
    object below), [no_bridges] is [False], and each of the six other bridge
    fields has the value that was loaded from the store. *)
Theorem checked_without_radio loaded f :
  bridge_use_checkbox f = Checked ->
  bridge_builtin_radio f = false ->
  bridge_moat_radio f = false ->
  bridge_custom_radio f = false ->
  settings_from_fields loaded f
  = Built (set "no_bridges" (VBool false)
             (set_text_fields f (set_connection_type f loaded)))
  /\ forall settings,
       settings_from_fields loaded f = Built settings ->
       get "no_bridges" settings = Some (VBool false)
       /\ forall key, In key bridge_keys -> get key settings = get key loaded.
Proof.
  intros Hu Hb Hm Hc.
  assert (E : settings_from_fields loaded f
              = Built (set "no_bridges" (VBool false)
                         (set_text_fields f (set_connection_type f loaded)))).
  { rewrite settings_from_fields_checked by exact Hu.
    unfold set_builtin_bridges, set_moat_bridges, set_custom_bridges.
    rewrite Hb, Hm, Hc. reflexivity. }
  split; [exact E|].
  intros settings Hs. rewrite E in Hs. injection Hs as <-.
  split; [apply get_set_eq|].
  intros key Hk. rewrite get_set_ne.
  - apply get_text_fields_bridge. right. exact Hk.
  - intros <-. simpl in Hk. intuition discriminate.
Qed.

Lemma checked_without_radio_witness :
  settings_from_fields Sample.obfs4_settings Sample.no_radio_fields
  = Built (set "no_bridges" (VBool false)
             (set_text_fields Sample.no_radio_fields
                (set_connection_type Sample.no_radio_fields
                   Sample.obfs4_settings)))
  /\ forall settings,
       settings_from_fields Sample.obfs4_settings Sample.no_radio_fields
       = Built settings ->
       get "no_bridges" settings = Some (VBool false)
       /\ forall key, In key bridge_keys ->
            get key settings = get key Sample.obfs4_settings.
Proof.
  apply (checked_without_radio Sample.obfs4_settings Sample.no_radio_fields);
    reflexivity.
Defined.

(** ** When the builder fails *)

Lemma set_moat_bridges_blank f settings :
  bridge_moat_radio f = true ->
  blank (bridge_moat_textbox f) = true ->
  set_moat_bridges f settings = Invalid gui_settings_moat_bridges_invalid.
Proof.
  intros Hm Hb. unfold set_moat_bridges. rewrite Hm.
  rewrite bool_decide_eq_true_2; [reflexivity|].
  apply strip_nil_iff. exact Hb.
Qed.

Lemma set_moat_bridges_inv f settings message :
  set_moat_bridges f settings = Invalid message ->
  message = gui_settings_moat_bridges_invalid
  /\ bridge_moat_radio f = true /\ blank (bridge_moat_textbox f) = true.
Proof.
  unfold set_moat_bridges. destruct (bridge_moat_radio f); [|discriminate].
  case_bool_decide as E; [|discriminate].
  intros [= <-]. apply strip_nil_iff in E. auto.
Qed.

Lemma set_custom_bridges_inv f settings message :
  set_custom_bridges f settings = Invalid message ->
  message = gui_settings_tor_bridges_invalid
  /\ bridge_custom_radio f = true
  /\ existsb bridge_matches (Str.split Str.LF (bridge_custom_textbox f)) = false.
Proof.
  unfold set_custom_bridges. destruct (bridge_custom_radio f); [|discriminate].
  rewrite validate_bridges_filter, existsb_accepted_line.
  destruct (existsb bridge_matches _); [discriminate|].
  intros [= <-]. auto.
Qed.

(** The builder fails only in the two ways of lines 802-806 and 851-855. *)
Lemma settings_from_fields_invalid loaded f message :
  settings_from_fields loaded f = Invalid message ->
  bridge_use_checkbox f = Checked
  /\ ((message = MoatBridgesEmpty
       /\ bridge_moat_radio f = true /\ blank (bridge_moat_textbox f) = true)
      \/ (message = CustomBridgesInvalid
          /\ bridge_custom_radio f = true
          /\ existsb bridge_matches
               (Str.split Str.LF (bridge_custom_textbox f)) = false)).
Proof.
  destruct (decide (bridge_use_checkbox f = Checked)) as [Hu|Hu].
  - rewrite settings_from_fields_checked by exact Hu.
    intros H. split; [exact Hu|].
    destruct (set_moat_bridges f _) as [s|m] eqn:Em; simpl in H.
    + right. eapply set_custom_bridges_inv. exact H.
    + left. injection H as ->. eapply set_moat_bridges_inv. exact Em.
  - rewrite settings_from_fields_unchecked by exact Hu. discriminate.
Qed.

Lemma text_fields_copied_base loaded f :
  text_fields_copied f (set_text_fields f (set_connection_type f loaded)).
Proof. unfold text_fields_copied. repeat split; lookup_set. Qed.

Lemma text_fields_copied_set f settings key val :
  ~ In key ["control_port_address"; "control_port_port"; "socket_file_path";
            "socks_address"; "socks_port"; "auth_password"]%string ->
  text_fields_copied f settings ->
  text_fields_copied f (set key val settings).
Proof.
  intros Hk. unfold text_fields_copied.
  rewrite !get_set_ne by (intros ->; apply Hk; simpl; tauto).
  tauto.
Qed.

Lemma text_fields_copied_builtin f settings :
  text_fields_copied f settings ->
  text_fields_copied f (set_builtin_bridges f settings).
Proof.
  intros H. unfold set_builtin_bridges.
  repeat match goal with
         | |- context [if ?b then _ else _] => destruct b
         end;
    repeat (apply text_fields_copied_set;
            [simpl; intuition discriminate|]);
    exact H.
Qed.

(** C10: the builder fails only with one of the two bridge messages, the
    first only when the moat textbox is blank, the second only when no line
    of the custom textbox matches.  With the "use bridges" checkbox
    unchecked, or with it checked and the built-in radio button the checked
    one of the exclusive three, the builder returns a configuration whatever
    the text fields hold, and the address, port, path and password fields of
    that configuration are the texts of the widgets. *)
Theorem settings_from_fields_succeeds loaded f :
  (forall message,
     settings_from_fields loaded f = Invalid message ->
     (message = MoatBridgesEmpty /\ blank (bridge_moat_textbox f) = true)
     \/ (message = CustomBridgesInvalid
         /\ existsb bridge_matches
              (Str.split Str.LF (bridge_custom_textbox f)) = false))
  /\ (bridge_use_checkbox f <> Checked
      \/ (bridge_use_checkbox f = Checked
          /\ bridge_builtin_radio f = true
          /\ bridge_radios_exclusive f = true) ->
      exists settings,
        settings_from_fields loaded f = Built settings
        /\ text_fields_copied f settings).
Proof.
  split.
  - intros message H. apply settings_from_fields_invalid in H.
    destruct H as [_ [(-> & _ & H)|(-> & _ & H)]]; auto.
  - intros [Hu|(Hu & Hb & Hx)].
    + eexists. split; [apply settings_from_fields_unchecked, Hu|].
      apply text_fields_copied_set; [simpl; intuition discriminate|].
      apply text_fields_copied_base.
    + unfold bridge_radios_exclusive in Hx. rewrite Hb in Hx.
      destruct (bridge_moat_radio f) eqn:Hm; [discriminate|].
      destruct (bridge_custom_radio f) eqn:Hc; [discriminate|].
      eexists. split.
      * rewrite settings_from_fields_checked by exact Hu.
        unfold set_moat_bridges, set_custom_bridges. rewrite Hm, Hc.
        reflexivity.
      * apply text_fields_copied_builtin.
        apply text_fields_copied_set; [simpl; intuition discriminate|].
        apply text_fields_copied_base.
Qed.

Lemma settings_from_fields_succeeds_witness :
  exists settings,
    settings_from_fields Sample.obfs4_settings Sample.snowflake_fields
    = Built settings
    /\ text_fields_copied Sample.snowflake_fields settings.
Proof.
  apply (settings_from_fields_succeeds Sample.obfs4_settings
           Sample.snowflake_fields).
  right. repeat split; compute_done.
Defined.

(** ** The moat textbox *)

Lemma settings_from_fields_moat_blank loaded f :
  bridge_use_checkbox f = Checked ->
  bridge_moat_radio f = true ->
  blank (bridge_moat_textbox f) = true ->
  settings_from_fields loaded f = Invalid MoatBridgesEmpty.
Proof.
  intros Hu Hm Hb. rewrite settings_from_fields_checked by exact Hu.
  rewrite set_moat_bridges_blank by assumption. reflexivity.
Qed.

(** C7: with bridges in use, the moat radio button checked and a blank moat
    textbox, the builder fails with [MoatBridgesEmpty]; both the test and
    the save handler then stop at once: no collaborator is called (no
    connection is started, nothing is saved), the store is as it was, and
    the message is in the error label. *)
Theorem moat_blank_fails t :
  bridge_use_checkbox (fields t) = Checked ->
  bridge_moat_radio (fields t) = true ->
  blank (bridge_moat_textbox (fields t)) = true ->
  settings_from_fields (stored t) (fields t) = Invalid MoatBridgesEmpty
  /\ (forall handler, handler = test_tor_clicked \/ handler = save_clicked ->
      events (handler t) = events t
      /\ stored (handler t) = stored t
      /\ old_settings (handler t) = old_settings t
      /\ tor_con_type (handler t) = tor_con_type t
      /\ error_label (handler t) = Localised MoatBridgesEmpty).
Proof.
  intros Hu Hm Hb.
  pose proof (settings_from_fields_moat_blank (stored t) _ Hu Hm Hb) as E.
  split; [exact E|].
  intros handler [-> | ->]; unfold test_tor_clicked, save_clicked; simpl;
    rewrite E; simpl; auto.
Qed.

Lemma moat_blank_fails_witness :
  let t := Sample.tab Sample.obfs4_settings Sample.moat_blank_fields false false in
  settings_from_fields (stored t) (fields t) = Invalid MoatBridgesEmpty
  /\ (forall handler, handler = test_tor_clicked \/ handler = save_clicked ->
      events (handler t) = events t
      /\ stored (handler t) = stored t
      /\ old_settings (handler t) = old_settings t
      /\ tor_con_type (handler t) = tor_con_type t
      /\ error_label (handler t) = Localised MoatBridgesEmpty).
Proof.
  apply (moat_blank_fails
           (Sample.tab Sample.obfs4_settings Sample.moat_blank_fields false false));
    compute_done.
Defined.

(** ** The custom bridges *)

Lemma exclusive_custom f :
  bridge_radios_exclusive f = true ->
  bridge_custom_radio f = true ->
  bridge_builtin_radio f = false /\ bridge_moat_radio f = false.
Proof.
  unfold bridge_radios_exclusive. intros H Hc. rewrite Hc in H.
  destruct (bridge_builtin_radio f), (bridge_moat_radio f);
    try discriminate; auto.
Qed.

Lemma settings_from_fields_custom loaded f :
  bridge_use_checkbox f = Checked ->
  bridge_custom_radio f = true ->
  bridge_radios_exclusive f = true ->
  settings_from_fields loaded f
  = set_custom_bridges f
      (set "no_bridges" (VBool false)
         (set_text_fields f (set_connection_type f loaded))).
Proof.
  intros Hu Hc Hx. destruct (exclusive_custom f Hx Hc) as [Hb Hm].
  rewrite settings_from_fields_checked by exact Hu.
  unfold set_builtin_bridges, set_moat_bridges. rewrite Hb, Hm. reflexivity.
Qed.

Lemma set_custom_bridges_checked f settings :
  bridge_custom_radio f = true ->
  let bridges := Str.split Str.LF (bridge_custom_textbox f) in
  set_custom_bridges f settings
  = if existsb bridge_matches bridges
    then Built
           (set "tor_bridges_use_custom_bridges"
              (VStr (Str.join [Str.LF] (List.filter accepted_line bridges)
                     ++ [Str.LF]))
              (set "tor_bridges_use_moat" (VBool false)
                 (set "tor_bridges_use_snowflake" (VBool false)
                    (set "tor_bridges_use_meek_lite_azure" (VBool false)
                       (set "tor_bridges_use_obfs4" (VBool false) settings)))))
    else Invalid gui_settings_tor_bridges_invalid.
Proof.
  intros Hc. unfold set_custom_bridges. rewrite Hc.
  rewrite validate_bridges_filter, existsb_accepted_line. reflexivity.
Qed.

(** C1: the loop over the lines of the custom textbox keeps exactly the lines
    that are not empty and match one of the four patterns, in the order of
    the text (it computes the [filter] of the lines), and its flag says
    whether some line matched.  When one did, the builder succeeds, and the
    stored custom bridges are the kept lines joined by line feeds, with one
    more line feed at the end. *)
Theorem custom_bridges_validated (textbox : list N) :
  let bridges := Str.split Str.LF textbox in
  let accepted := List.filter accepted_line bridges in
  validate_bridges textbox = (accepted, existsb bridge_matches bridges)
  /\ (forall bridge,
        In bridge accepted <->
        In bridge bridges /\ bridge <> [] /\ bridge_matches bridge = true)
  /\ (forall loaded f,
        bridge_use_checkbox f = Checked ->
        bridge_custom_radio f = true ->
        bridge_radios_exclusive f = true ->
        bridge_custom_textbox f = textbox ->
        existsb bridge_matches bridges = true ->
        exists settings,
          settings_from_fields loaded f = Built settings
          /\ get "tor_bridges_use_custom_bridges" settings
             = Some (VStr (Str.join [Str.LF] accepted ++ [Str.LF]))).
Proof.
  intros bridges accepted. split; [|split].
  - unfold accepted, bridges. rewrite validate_bridges_filter.
    rewrite existsb_accepted_line. reflexivity.
  - intros bridge. unfold accepted. rewrite filter_In.
    unfold accepted_line. rewrite andb_true_iff.
    destruct bridge; simpl; intuition congruence.
  - intros loaded f Hu Hc Hx Ht He.
    rewrite settings_from_fields_custom by assumption.
    rewrite set_custom_bridges_checked by exact Hc.
    rewrite Ht. fold bridges. rewrite He. fold accepted.
    eexists. split; [reflexivity|]. apply get_set_eq.
Qed.

Lemma custom_bridges_validated_witness :
  exists settings,
    settings_from_fields Sample.obfs4_settings Sample.custom_fields
    = Built settings
    /\ get "tor_bridges_use_custom_bridges" settings
       = Some (VStr (Str.join [Str.LF]
                       (List.filter accepted_line
                          (Str.split Str.LF Sample.custom_text))
                     ++ [Str.LF])).
Proof.
  apply (proj2 (proj2 (custom_bridges_validated Sample.custom_text))
           Sample.obfs4_settings Sample.custom_fields);
    compute_done.
Defined.

(** C5: for the custom bridges text of the scenario, a well-formed obfs4
    line followed by the line [notabridge], the builder succeeds and the
    stored custom bridges are the well-formed line and a line feed. *)
Theorem scenario_custom_bridges loaded f :
  bridge_use_checkbox f = Checked ->
  bridge_custom_radio f = true ->
  bridge_radios_exclusive f = true ->
  bridge_custom_textbox f
  = Str.of_string "obfs4 192.0.2.1:443 ABCDEF0123456789ABCDEF0123456789ABCDEF01"
    ++ [Str.LF] ++ Str.of_string "notabridge" ++ [Str.LF] ->
  exists settings,
    settings_from_fields loaded f = Built settings
    /\ get "tor_bridges_use_custom_bridges" settings
       = Some (VStr (Str.of_string
                       "obfs4 192.0.2.1:443 ABCDEF0123456789ABCDEF0123456789ABCDEF01"
                     ++ [Str.LF])).
Proof.
  intros Hu Hc Hx Ht.
  rewrite settings_from_fields_custom by assumption.
  rewrite set_custom_bridges_checked by exact Hc.
  rewrite Ht.
  match goal with
  | |- context [existsb bridge_matches ?l] =>
      replace (existsb bridge_matches l) with true by (vm_compute; reflexivity)
  end.
  eexists. split; [reflexivity|]. rewrite get_set_eq.
  vm_compute. reflexivity.
Qed.

Lemma scenario_custom_bridges_witness :
  exists settings,
    settings_from_fields Sample.obfs4_settings Sample.custom_fields
    = Built settings
    /\ get "tor_bridges_use_custom_bridges" settings
       = Some (VStr (Str.of_string
                       "obfs4 192.0.2.1:443 ABCDEF0123456789ABCDEF0123456789ABCDEF01"
                     ++ [Str.LF])).
Proof.
  apply (scenario_custom_bridges Sample.obfs4_settings Sample.custom_fields);
    compute_done.
Defined.

(** C8: with bridges in use and the custom radio button the checked one,
    when no line of the textbox matches any of the four patterns, as when
    the text is blank, the loop keeps no line and leaves its flag down, and
    the builder fails with [CustomBridgesInvalid]. *)
Theorem custom_without_valid_line loaded f :
  bridge_use_checkbox f = Checked ->
  bridge_custom_radio f = true ->
  bridge_radios_exclusive f = true ->
  existsb bridge_matches (Str.split Str.LF (bridge_custom_textbox f)) = false
  \/ blank (bridge_custom_textbox f) = true ->
  validate_bridges (bridge_custom_textbox f) = ([], false)
  /\ settings_from_fields loaded f = Invalid CustomBridgesInvalid.
Proof.
  intros Hu Hc Hx H.
  assert (He : existsb bridge_matches
                 (Str.split Str.LF (bridge_custom_textbox f)) = false).
  { destruct H as [H|H]; [exact H|apply blank_text_no_match, H]. }
  split.
  - rewrite validate_bridges_filter, existsb_accepted_line, He.
    f_equal. apply filter_nil_existsb.
    rewrite existsb_accepted_line. exact He.
  - rewrite settings_from_fields_custom by assumption.
    rewrite set_custom_bridges_checked by exact Hc.
    cbv zeta. rewrite He. reflexivity.
Qed.

Lemma custom_without_valid_line_witness :
  validate_bridges (bridge_custom_textbox Sample.garbage_fields) = ([], false)
  /\ settings_from_fields Sample.obfs4_settings Sample.garbage_fields
     = Invalid CustomBridgesInvalid.
Proof.
  apply (custom_without_valid_line Sample.obfs4_settings Sample.garbage_fields);
    compute_done.
Defined.

(** ** The reconnect decision *)

Lemma py_eq_refl v : py_eq v v = true.
Proof.
  destruct v as [b|z|s]; simpl.
  - destruct b; reflexivity.
  - apply Z.eqb_refl.
  - apply bool_decide_eq_true_2. reflexivity.
Qed.

Lemma py_ne_refl o : py_ne o o = false.
Proof. destruct o; simpl; [rewrite py_eq_refl|]; reflexivity. Qed.

Lemma changed_iff s1 s2 keys :
  changed s1 s2 keys = true
  <-> exists key, In key keys /\ py_ne (get key s1) (get key s2) = true.
Proof.
  induction keys as [|k keys IH]; simpl.
  - split; [discriminate|]. intros (? & [] & _).
  - destruct (py_ne (get k s1) (get k s2)) eqn:E.
    + split; [|reflexivity]. intros _. exists k. auto.
    + rewrite IH. split.
      * intros (key & Hin & Hne). exists key. auto.
      * intros (key & [<- | Hin] & Hne); [congruence|]. exists key. auto.
Qed.

(** With an authenticated session the onion is rebooted exactly when one of
    the twelve listed keys has changed. *)
Lemma reboot_onion_authenticated settings old :
  reboot_onion true settings old = true
  <-> exists key,
        In key compared_keys /\ py_ne (get key settings) (get key old) = true.
Proof.
  unfold reboot_onion. rewrite <- changed_iff.
  destruct (changed settings old compared_keys); tauto.
Qed.

Lemma reboot_onion_same settings : reboot_onion true settings settings = false.
Proof.
  destruct (reboot_onion true settings settings) eqn:E; [|reflexivity].
  apply reboot_onion_authenticated in E. destruct E as (key & _ & H).
  rewrite py_ne_refl in H. discriminate.
Qed.

(** The store of the sample is what saving requested bridges leaves. *)
Lemma moat_settings_built :
  settings_from_fields Sample.obfs4_settings Sample.moat_fields
  = Built Sample.moat_settings.
Proof. compute_done. Qed.

(** C3 fails on the code: [tor_bridges_use_snowflake] is missing from the
    list of compared keys.  The store holds requested (moat) bridges, the
    session is authenticated, and the user selects the built-in snowflake
    bridge: the selected built-in kind has changed, yet no compared key has,
    the onion is not rebooted and the tab just closes. *)
Lemma snowflake_change_not_detected :
  settings_from_fields Sample.moat_settings Sample.moat_to_snowflake_fields
  = Built (Sample.select_snowflake Sample.moat_settings)
  /\ get "tor_bridges_use_snowflake" (Sample.select_snowflake Sample.moat_settings)
     = Some (VBool true)
  /\ get "tor_bridges_use_snowflake" Sample.moat_settings = Some (VBool false)
  /\ reboot_onion true (Sample.select_snowflake Sample.moat_settings)
       Sample.moat_settings
     = false
  /\ events (save_clicked
               (Sample.tab Sample.moat_settings Sample.moat_to_snowflake_fields
                  false true))
     = [SettingsSave (Sample.select_snowflake Sample.moat_settings);
        CloseThisTab].
Proof. repeat split; compute_done. Qed.

(** C6: without an authenticated session the decision is to reboot the
    onion, whatever the two configurations are; [save_clicked], when the
    program is not in local-only mode and the configuration is built, then
    saves, cleans up the onion and starts the connection attempt. *)
Theorem not_authenticated_reboots :
  (forall settings old, reboot_onion false settings old = true)
  /\ (forall t settings,
        local_only t = false ->
        is_authenticated t = false ->
        settings_from_fields (stored t) (fields t) = Built settings ->
        events (save_clicked t)
        = events t ++ [SettingsSave settings; OnionCleanup;
                       TorConStart settings false]
        /\ tor_con_type (save_clicked t) = Some con_save).
Proof.
  split; [reflexivity|].
  intros t settings Hl Ha E. unfold save_clicked. simpl. rewrite E. simpl.
  rewrite Hl, Ha. simpl. rewrite <- !app_assoc. auto.
Qed.

Lemma not_authenticated_reboots_witness :
  events (save_clicked
            (Sample.tab Sample.obfs4_settings Sample.snowflake_fields
               false false))
  = [] ++ [SettingsSave (Sample.select_snowflake Sample.obfs4_settings);
           OnionCleanup;
           TorConStart (Sample.select_snowflake Sample.obfs4_settings) false]
  /\ tor_con_type
       (save_clicked
          (Sample.tab Sample.obfs4_settings Sample.snowflake_fields
             false false))
     = Some con_save.
Proof.
  apply (proj2 not_authenticated_reboots
           (Sample.tab Sample.obfs4_settings Sample.snowflake_fields
              false false)
           (Sample.select_snowflake Sample.obfs4_settings));
    compute_done.
Defined.

(** ** What is persisted, and when *)

Lemma save_clicked_built t settings :
  settings_from_fields (stored t) (fields t) = Built settings ->
  stored (save_clicked t) = settings
  /\ exists rest,
       events (save_clicked t) = events t ++ SettingsSave settings :: rest
       /\ (forall s, ~ In (SettingsSave s) rest).
Proof.
  intros E. unfold save_clicked. simpl. rewrite E. simpl.
  destruct (local_only t); simpl.
  - split; [reflexivity|]. exists [CloseThisTab].
    rewrite <- app_assoc. split; [reflexivity|].
    simpl. intros s [H|[]]. discriminate.
  - destruct (reboot_onion _ _ _); simpl.
    + split; [reflexivity|].
      exists [OnionCleanup; TorConStart settings false].
      rewrite <- !app_assoc. split; [reflexivity|].
      simpl. intros s [H|[H|[]]]; discriminate.
    + split; [reflexivity|]. exists [CloseThisTab].
      rewrite <- app_assoc. split; [reflexivity|].
      simpl. intros s [H|[]]. discriminate.
Qed.

Lemma clicked_invalid t message :
  settings_from_fields (stored t) (fields t) = Invalid message ->
  forall handler, handler = test_tor_clicked \/ handler = save_clicked ->
  stored (handler t) = stored t /\ events (handler t) = events t.
Proof.
  intros E handler [-> | ->]; unfold test_tor_clicked, save_clicked; simpl;
    rewrite E; simpl; auto.
Qed.

Lemma tor_con_success_stored t : stored (tor_con_success t) = stored t.
Proof.
  unfold tor_con_success. simpl.
  destruct (tor_con_type t) as [[]|]; simpl; try reflexivity.
  destruct (is_authenticated t && negb (wasCanceled t)); reflexivity.
Qed.

Lemma tor_con_fail_stored msg t : stored (tor_con_fail msg t) = stored t.
Proof.
  unfold tor_con_fail. simpl.
  destruct (tor_con_type t) as [[]|]; reflexivity.
Qed.

(** *** Runs of the tab *)

Lemma last_saved_app initial log log' :
  last_saved initial (log ++ log') = last_saved (last_saved initial log) log'.
Proof. apply foldl_app. Qed.

(** Every step either leaves the store alone and logs no save, or is a click
    on Save whose build succeeded. *)
Lemma step_stored initial t t' :
  step t t' ->
  stored t = last_saved initial (events t) ->
  stored t' = last_saved initial (events t').
Proof.
  intros Hs Hi. destruct Hs as [t f|t a c|t _|t _|t _|t msg _]; simpl.
  - exact Hi.
  - exact Hi.
  - unfold test_tor_clicked. simpl.
    destruct (settings_from_fields (stored t) (fields t)); simpl.
    + rewrite <- app_assoc, last_saved_app. simpl. exact Hi.
    + exact Hi.
  - unfold save_clicked. simpl.
    destruct (settings_from_fields (stored t) (fields t)) as [s|]; simpl;
      [|exact Hi].
    destruct (local_only t); simpl;
      [|destruct (reboot_onion _ _ _); simpl];
      rewrite <- ?app_assoc, last_saved_app; reflexivity.
  - unfold tor_con_success. simpl.
    destruct (tor_con_type t) as [[]|]; simpl;
      [|destruct (is_authenticated t && negb (wasCanceled t)); simpl|];
      rewrite <- ?app_assoc, ?last_saved_app; exact Hi.
  - unfold tor_con_fail. simpl.
    destruct (tor_con_type t) as [[]|]; simpl;
      rewrite ?last_saved_app; exact Hi.
Qed.

Lemma run_stored_from initial t t' :
  rtc step t t' ->
  stored t = last_saved initial (events t) ->
  stored t' = last_saved initial (events t').
Proof.
  induction 1 as [t|t t1 t2 Hs _ IH]; intros H0; [exact H0|].
  apply IH. eapply step_stored; eassumption.
Qed.

(** Over any run of a tab that starts with an empty log, the store holds
    what the last [settings.save()] wrote, and what it held at the start
    when there was none. *)
Theorem run_stored t t' :
  rtc step t t' ->
  events t = [] ->
  stored t' = last_saved (stored t) (events t').
Proof.
  intros Hr He. apply (run_stored_from _ t); [exact Hr|].
  rewrite He. reflexivity.
Qed.

(** Only a click on Save with a configuration that builds adds a save to the
    log, and it adds one. *)
Lemma step_saves t t' :
  step t t' ->
  saves (events t') = saves (events t)
  \/ exists settings,
       t' = save_clicked t
       /\ settings_from_fields (stored t) (fields t) = Built settings
       /\ saves (events t') = saves (events t) ++ [settings].
Proof.
  unfold saves.
  intros [t0 f|t0 a c|t0 _|t0 _|t0 _|t0 msg _]; simpl; auto.
  - left. unfold test_tor_clicked. simpl.
    destruct (settings_from_fields (stored t0) (fields t0)); simpl;
      rewrite <- ?app_assoc, ?omap_app; simpl; rewrite ?app_nil_r; reflexivity.
  - destruct (settings_from_fields (stored t0) (fields t0)) as [s|] eqn:E.
    + right. exists s. split; [reflexivity|]. split; [reflexivity|].
      unfold save_clicked. simpl. rewrite E. simpl.
      destruct (local_only t0); simpl;
        [|destruct (reboot_onion _ _ _); simpl];
        rewrite <- ?app_assoc, omap_app; reflexivity.
    + left. unfold save_clicked. simpl. rewrite E. reflexivity.
  - left. unfold tor_con_success. simpl.
    destruct (tor_con_type t0) as [[]|]; simpl;
      [|destruct (is_authenticated t0 && negb (wasCanceled t0)); simpl|];
      rewrite <- ?app_assoc, ?omap_app; simpl; rewrite ?app_nil_r; reflexivity.
  - left. unfold tor_con_fail. simpl.
    destruct (tor_con_type t0) as [[]|]; simpl;
      rewrite ?omap_app; simpl; rewrite ?app_nil_r; reflexivity.
Qed.

(** C2 as the spec has it fails: [save_clicked] saves the configuration as
    soon as it is built, before the connection attempt.  Here the session is
    not authenticated, the attempt is started and then fails: the message is
    shown, and the store holds the candidate configuration, which is not the
    one it held before. *)
Lemma failed_save_is_persisted :
  settings_from_fields Sample.obfs4_settings Sample.snowflake_fields
  = Built (Sample.select_snowflake Sample.obfs4_settings)
  /\ tor_con_type
       (save_clicked
          (Sample.tab Sample.obfs4_settings Sample.snowflake_fields
             false false))
     = Some con_save
  /\ error_label
       (tor_con_fail (Sample.u "Tor failed")
          (save_clicked
             (Sample.tab Sample.obfs4_settings Sample.snowflake_fields
                false false)))
     = Text (Sample.u "Tor failed")
  /\ stored
       (tor_con_fail (Sample.u "Tor failed")
          (save_clicked
             (Sample.tab Sample.obfs4_settings Sample.snowflake_fields
                false false)))
     = Sample.select_snowflake Sample.obfs4_settings
  /\ Sample.select_snowflake Sample.obfs4_settings <> Sample.obfs4_settings.
Proof. repeat split; compute_done. Qed.

(** C2, amended.  For a save action the configuration is persisted as soon
    as it is built, before the reconnect decision and before any connection
    attempt, and that is the only call of [save]; it stays persisted
    whatever the attempt gives, since neither [tor_con_success] nor
    [tor_con_fail] writes to the store.  Nothing is persisted when the build
    fails.  A test action never calls [save] and leaves the store as it was:
    it makes a throwaway onion, starts the attempt on it, and on success
    shows the alert and cleans the throwaway onion up at once (on failure it
    cleans it up too). *)
Theorem persistence_contract t :
  (forall settings,
     settings_from_fields (stored t) (fields t) = Built settings ->
     (exists rest,
        events (save_clicked t) = events t ++ SettingsSave settings :: rest
        /\ (forall s, ~ In (SettingsSave s) rest))
     /\ (forall a c msg,
           stored (tor_con_success (answers a c (save_clicked t))) = settings
           /\ stored (tor_con_fail msg (answers a c (save_clicked t)))
              = settings)
     /\ (forall a c,
           stored (tor_con_success (answers a c (test_tor_clicked t)))
           = stored t
           /\ events (tor_con_success (answers a c (test_tor_clicked t)))
              = events t ++ [TestOnionNew; TorConStart settings true;
                             AlertTestSuccess; TestOnionCleanup])
     /\ (forall a c msg,
           stored (tor_con_fail msg (answers a c (test_tor_clicked t)))
           = stored t
           /\ events (tor_con_fail msg (answers a c (test_tor_clicked t)))
              = events t ++ [TestOnionNew; TorConStart settings true;
                             TestOnionCleanup]))
  /\ (forall message,
        settings_from_fields (stored t) (fields t) = Invalid message ->
        forall handler, handler = test_tor_clicked \/ handler = save_clicked ->
        stored (handler t) = stored t /\ events (handler t) = events t).
Proof.
  split; [|apply clicked_invalid].
  intros settings E. repeat split.
  - apply save_clicked_built, E.
  - rewrite tor_con_success_stored. simpl. apply save_clicked_built, E.
  - rewrite tor_con_fail_stored. simpl. apply save_clicked_built, E.
  - rewrite tor_con_success_stored. simpl.
    unfold test_tor_clicked. simpl. rewrite E. reflexivity.
  - unfold test_tor_clicked. simpl. rewrite E. simpl.
    rewrite <- !app_assoc. reflexivity.
  - rewrite tor_con_fail_stored. simpl.
    unfold test_tor_clicked. simpl. rewrite E. reflexivity.
  - unfold test_tor_clicked. simpl. rewrite E. simpl.
    rewrite <- !app_assoc. reflexivity.
Qed.

Lemma persistence_contract_witness :
  (forall a c msg,
     stored
       (tor_con_success
          (answers a c
             (save_clicked
                (Sample.tab Sample.moat_settings Sample.snowflake_fields
                   false false))))
     = Sample.select_snowflake Sample.moat_settings
     /\ stored
          (tor_con_fail msg
             (answers a c
                (save_clicked
                   (Sample.tab Sample.moat_settings Sample.snowflake_fields
                      false false))))
        = Sample.select_snowflake Sample.moat_settings)
  /\ (forall handler, handler = test_tor_clicked \/ handler = save_clicked ->
      stored (handler (Sample.tab Sample.obfs4_settings
                         Sample.moat_blank_fields false false))
      = Sample.obfs4_settings
      /\ events (handler (Sample.tab Sample.obfs4_settings
                            Sample.moat_blank_fields false false))
         = []).
Proof.
  split.
  - apply (proj1 (persistence_contract
                    (Sample.tab Sample.moat_settings Sample.snowflake_fields
                       false false))
             (Sample.select_snowflake Sample.moat_settings)).
    compute_done.
  - apply (proj2 (persistence_contract
                    (Sample.tab Sample.obfs4_settings Sample.moat_blank_fields
                       false false))
             gui_settings_moat_bridges_invalid).
    compute_done.
Defined.

(** ** The builder as a list of writes *)

Lemma apply_writes_app ws ws' settings :
  apply_writes (ws ++ ws') settings = apply_writes ws' (apply_writes ws settings).
Proof. apply foldl_app. Qed.

Lemma lookup_apply_writes ws settings key :
  get key (apply_writes ws settings)
  = match last_write key ws with
    | Some v => Some v
    | None => get key settings
    end.
Proof.
  revert settings. induction ws as [|[k v] ws IH]; intros settings;
    [reflexivity|].
  change (apply_writes ((k, v) :: ws) settings)
    with (apply_writes ws (set k v settings)).
  rewrite IH. simpl. destruct (last_write key ws); [reflexivity|].
  unfold get, set. destruct (decide (k = key)) as [->|Hne].
  - apply lookup_insert_eq.
  - apply lookup_insert_ne. exact Hne.
Qed.

Lemma last_write_None key ws :
  key ∉ ws.*1 -> last_write key ws = None.
Proof.
  induction ws as [|[k v] ws IH]; [reflexivity|]. simpl. intros H.
  apply not_elem_of_cons in H. destruct H as [Hk Hws].
  rewrite (IH Hws). destruct (decide (k = key)); [congruence|reflexivity].
Qed.

Lemma set_connection_type_writes f settings :
  set_connection_type f settings
  = apply_writes (connection_type_writes f) settings.
Proof.
  unfold set_connection_type, connection_type_writes.
  destruct (connection_type_bundled_radio f),
    (connection_type_automatic_radio f),
    (connection_type_control_port_radio f),
    (connection_type_socket_file_radio f); reflexivity.
Qed.

Lemma set_text_fields_writes f settings :
  set_text_fields f settings = apply_writes (text_fields_writes f) settings.
Proof.
  unfold set_text_fields, text_fields_writes, apply_writes. simpl.
  destruct (bool_decide _); reflexivity.
Qed.

Lemma set_builtin_bridges_writes f settings :
  set_builtin_bridges f settings = apply_writes (builtin_writes f) settings.
Proof.
  unfold set_builtin_bridges, builtin_writes.
  destruct (bridge_builtin_radio f); [|reflexivity].
  repeat (destruct (bool_decide _); [reflexivity|]). reflexivity.
Qed.

Lemma set_moat_bridges_writes f settings :
  set_moat_bridges f settings
  = let* ws := moat_writes f in Built (apply_writes ws settings).
Proof.
  unfold set_moat_bridges, moat_writes.
  destruct (bridge_moat_radio f); [|reflexivity].
  destruct (bool_decide _); reflexivity.
Qed.

Lemma set_custom_bridges_writes f settings :
  set_custom_bridges f settings
  = let* ws := custom_writes f in Built (apply_writes ws settings).
Proof.
  unfold set_custom_bridges, custom_writes.
  destruct (bridge_custom_radio f); [|reflexivity].
  destruct (validate_bridges _) as [new valid]. destruct valid; reflexivity.
Qed.

(** [settings_from_fields] makes the writes of [writes] on the loaded
    object, and fails when [writes] does. *)
Lemma settings_from_fields_writes loaded f :
  settings_from_fields loaded f
  = let* ws := writes f in Built (apply_writes ws loaded).
Proof.
  unfold settings_from_fields, writes.
  rewrite set_connection_type_writes, set_text_fields_writes.
  destruct (bool_decide (bridge_use_checkbox f = Checked)).
  - rewrite set_builtin_bridges_writes, set_moat_bridges_writes.
    destruct (moat_writes f) as [mw|e]; [|reflexivity]. cbn [built_bind].
    rewrite set_custom_bridges_writes.
    destruct (custom_writes f) as [cw|e]; [|reflexivity]. cbn [built_bind].
    rewrite !apply_writes_app. reflexivity.
  - cbn [built_bind]. rewrite !apply_writes_app. reflexivity.
Qed.

Ltac solve_keys :=
  repeat first
    [ apply Forall_nil_2
    | apply Forall_app_2
    | apply Forall_cons_2;
      [apply list_elem_of_In; simpl; tauto|] ].

Lemma connection_type_writes_keys f :
  Forall (fun kv => kv.1 ∈ tor_keys) (connection_type_writes f).
Proof.
  unfold connection_type_writes.
  destruct (connection_type_bundled_radio f),
    (connection_type_automatic_radio f),
    (connection_type_control_port_radio f),
    (connection_type_socket_file_radio f); solve_keys.
Qed.

Lemma text_fields_writes_keys f :
  Forall (fun kv => kv.1 ∈ tor_keys) (text_fields_writes f).
Proof. unfold text_fields_writes. solve_keys. Qed.

Lemma builtin_writes_keys f :
  Forall (fun kv => kv.1 ∈ tor_keys) (builtin_writes f).
Proof.
  unfold builtin_writes, builtin_flags.
  destruct (bridge_builtin_radio f); [|solve_keys].
  repeat (destruct (bool_decide _); [solve_keys|]). solve_keys.
Qed.

Lemma moat_writes_keys f ws :
  moat_writes f = Built ws -> Forall (fun kv => kv.1 ∈ tor_keys) ws.
Proof.
  unfold moat_writes, builtin_flags.
  destruct (bridge_moat_radio f);
    [destruct (bool_decide _); [discriminate|]|];
    intros [= <-]; solve_keys.
Qed.

Lemma custom_writes_keys f ws :
  custom_writes f = Built ws -> Forall (fun kv => kv.1 ∈ tor_keys) ws.
Proof.
  unfold custom_writes, builtin_flags.
  destruct (bridge_custom_radio f);
    [destruct (validate_bridges _) as [new []]; [|discriminate]|];
    intros [= <-]; solve_keys.
Qed.

Lemma writes_keys f ws :
  writes f = Built ws -> Forall (fun kv => kv.1 ∈ tor_keys) ws.
Proof.
  unfold writes.
  pose proof (connection_type_writes_keys f).
  pose proof (text_fields_writes_keys f).
  pose proof (builtin_writes_keys f).
  destruct (bool_decide (bridge_use_checkbox f = Checked)).
  - destruct (moat_writes f) as [mw|] eqn:Em; [|discriminate].
    destruct (custom_writes f) as [cw|] eqn:Ec; [|discriminate].
    apply moat_writes_keys in Em. apply custom_writes_keys in Ec.
    intros [= <-].
    apply Forall_app_2; [apply Forall_app_2; assumption|].
    apply Forall_cons_2; [apply list_elem_of_In; simpl; tauto|].
    apply Forall_app_2; [assumption|]. apply Forall_app_2; assumption.
  - intros [= <-].
    apply Forall_app_2; [apply Forall_app_2; assumption|].
    apply Forall_cons_2; [apply list_elem_of_In; simpl; tauto|].
    apply Forall_nil_2.
Qed.

Lemma writes_frame f ws key :
  writes f = Built ws -> key ∉ tor_keys -> last_write key ws = None.
Proof.
  intros Hw Hk. apply last_write_None. intros Hin.
  apply list_elem_of_fmap in Hin. destruct Hin as ([k v] & -> & Hin).
  apply writes_keys in Hw. rewrite Forall_forall in Hw.
  apply Hk. apply (Hw (k, v)). exact Hin.
Qed.

(** X1: whatever else the store holds is kept: the built configuration has,
    under every key that is not one of the fifteen Tor keys, what was loaded
    (the update time stamp that line 739 loads the store for, for one), and
    it has every key that was loaded. *)
Theorem settings_from_fields_keeps_other_keys loaded f settings :
  settings_from_fields loaded f = Built settings ->
  (forall key, key ∉ tor_keys -> get key settings = get key loaded)
  /\ (forall key, is_Some (get key loaded) -> is_Some (get key settings)).
Proof.
  rewrite settings_from_fields_writes.
  destruct (writes f) as [ws|] eqn:Hw; [|discriminate].
  intros [= <-]. split.
  - intros key Hk. rewrite lookup_apply_writes.
    rewrite (writes_frame _ _ _ Hw Hk). reflexivity.
  - intros key Hs. rewrite lookup_apply_writes.
    destruct (last_write key ws); [eauto|exact Hs].
Qed.

(** X2: building again from what was built changes nothing: with the same
    widgets, the configuration built from a built configuration is that
    configuration. *)
Theorem settings_from_fields_idempotent loaded f settings :
  settings_from_fields loaded f = Built settings ->
  settings_from_fields settings f = Built settings.
Proof.
  rewrite !settings_from_fields_writes.
  destruct (writes f) as [ws|]; [|discriminate].
  intros [= <-]. cbn [built_bind]. f_equal. apply map_eq. intros key.
  change (get key (apply_writes ws (apply_writes ws loaded))
          = get key (apply_writes ws loaded)).
  rewrite !lookup_apply_writes.
  destruct (last_write key ws); reflexivity.
Qed.

(** X3: whether the builder fails, and with which message, depends on the
    widgets only, not on what the store holds. *)
Theorem settings_from_fields_failure_widgets_only loaded loaded' f message :
  settings_from_fields loaded f = Invalid message ->
  settings_from_fields loaded' f = Invalid message.
Proof.
  rewrite !settings_from_fields_writes.
  destruct (writes f); [discriminate|]. intros H. exact H.
Qed.

Lemma settings_from_fields_keeps_other_keys_witness :
  (forall key, key ∉ tor_keys ->
     get key
       (Sample.select_snowflake
          (<["autoupdate_timestamp" := VInt 1636000000]> Sample.obfs4_settings))
     = get key
         (<["autoupdate_timestamp" := VInt 1636000000]> Sample.obfs4_settings))
  /\ (forall key,
        is_Some
          (get key
             (<["autoupdate_timestamp" := VInt 1636000000]>
                Sample.obfs4_settings)) ->
        is_Some
          (get key
             (Sample.select_snowflake
                (<["autoupdate_timestamp" := VInt 1636000000]>
                   Sample.obfs4_settings)))).
Proof.
  apply (settings_from_fields_keeps_other_keys
           (<["autoupdate_timestamp" := VInt 1636000000]> Sample.obfs4_settings)
           Sample.snowflake_fields).
  compute_done.
Defined.

Lemma settings_from_fields_idempotent_witness :
  settings_from_fields (Sample.select_snowflake Sample.obfs4_settings)
    Sample.snowflake_fields
  = Built (Sample.select_snowflake Sample.obfs4_settings).
Proof.
  apply (settings_from_fields_idempotent Sample.obfs4_settings).
  compute_done.
Defined.

Lemma settings_from_fields_failure_widgets_only_witness :
  settings_from_fields Sample.moat_settings Sample.moat_blank_fields
  = Invalid gui_settings_moat_bridges_invalid.
Proof.
  apply (settings_from_fields_failure_widgets_only Sample.obfs4_settings).
  compute_done.
Defined.

(** ** The custom bridges, stored and loaded again *)

(** *** Splitting and joining *)

Lemma split_cons_inv sep s : exists l ls, Str.split sep s = l :: ls.
Proof.
  induction s as [|c s (l & ls & IH)]; simpl; [eauto|].
  destruct (N.eqb c sep); [eauto|]. rewrite IH. eauto.
Qed.

Lemma split_no_sep sep s : Forall (fun l => sep ∉ l) (Str.split sep s).
Proof.
  induction s as [|c s IH]; simpl.
  - repeat constructor. apply not_elem_of_nil.
  - destruct (N.eqb c sep) eqn:E.
    + constructor; [apply not_elem_of_nil|exact IH].
    + destruct (Str.split sep s) as [|l ls]; simpl.
      * repeat constructor. apply N.eqb_neq in E.
        intros H. apply list_elem_of_singleton in H. congruence.
      * apply Forall_cons in IH. destruct IH as [Hl Hls].
        constructor; [|exact Hls]. apply N.eqb_neq in E.
        intros H. apply elem_of_cons in H. destruct H; congruence.
Qed.

Lemma split_app_sep sep l t :
  sep ∉ l -> Str.split sep (l ++ sep :: t) = l :: Str.split sep t.
Proof.
  induction l as [|c l IH]; simpl; intros H.
  - rewrite N.eqb_refl. reflexivity.
  - apply not_elem_of_cons in H. destruct H as [Hc Hl].
    destruct (N.eqb c sep) eqn:E; [apply N.eqb_eq in E; congruence|].
    rewrite (IH Hl). reflexivity.
Qed.

Lemma join_cons sep l l' ls :
  Str.join sep (l :: l' :: ls) = l ++ sep ++ Str.join sep (l' :: ls).
Proof. reflexivity. Qed.

(** Pieces without the separator, joined and followed by the separator,
    split into the same pieces and one empty piece. *)
Lemma split_join_sep sep ls :
  ls <> [] -> Forall (fun l => sep ∉ l) ls ->
  Str.split sep (Str.join [sep] ls ++ [sep]) = ls ++ [[]].
Proof.
  induction ls as [|l ls IH]; [congruence|]. intros _ H.
  apply Forall_cons in H. destruct H as [Hl Hls].
  destruct ls as [|l' ls].
  - simpl. rewrite split_app_sep by exact Hl. reflexivity.
  - assert (E : Str.join [sep] (l :: l' :: ls) ++ [sep]
                = l ++ sep :: (Str.join [sep] (l' :: ls) ++ [sep])).
    { rewrite join_cons, <- app_assoc. reflexivity. }
    rewrite E, split_app_sep by exact Hl.
    rewrite (IH ltac:(congruence) Hls). reflexivity.
Qed.

(** *** What the validation keeps *)

Lemma filter_all {A} (p : A -> bool) l :
  Forall (fun x => p x = true) l -> List.filter p l = l.
Proof.
  induction 1 as [|x l Hx _ IH]; simpl; [reflexivity|].
  rewrite Hx, IH. reflexivity.
Qed.

Lemma validate_bridges_kept textbox new_bridges :
  validate_bridges textbox = (new_bridges, true) ->
  new_bridges <> []
  /\ Forall (fun b => accepted_line b = true) new_bridges
  /\ Forall (fun b => Str.LF ∉ b) new_bridges.
Proof.
  rewrite validate_bridges_filter. intros [= <- He]. split; [|split].
  - intros Hn. apply filter_nil_existsb in Hn. congruence.
  - apply Forall_forall. intros b Hb. apply list_elem_of_In in Hb.
    apply filter_In in Hb. tauto.
  - pose proof (split_no_sep Str.LF textbox) as H.
    rewrite Forall_forall in H. apply Forall_forall. intros b Hb.
    apply H. apply list_elem_of_In. apply list_elem_of_In in Hb.
    apply filter_In in Hb. tauto.
Qed.

Lemma validate_bridges_stored textbox new_bridges :
  validate_bridges textbox = (new_bridges, true) ->
  validate_bridges (Str.join [Str.LF] new_bridges ++ [Str.LF])
  = (new_bridges, true).
Proof.
  intros H. destruct (validate_bridges_kept _ _ H) as (Hn & Ha & Hl).
  rewrite validate_bridges_filter.
  rewrite split_join_sep by assumption.
  rewrite List.filter_app, existsb_app. simpl.
  rewrite app_nil_r, orb_false_r, (filter_all _ _ Ha). f_equal.
  destruct new_bridges as [|b bs]; [congruence|].
  apply Forall_cons in Ha. destruct Ha as [Hb _]. simpl. rewrite Hb.
  reflexivity.
Qed.

(** X4: the stored custom bridges come back unchanged: put in the custom
    textbox again (as [reload_settings] does), whatever the store holds
    then, they are stored again as they are. *)
Theorem custom_bridges_round_trip loaded loaded' f f' settings text :
  bridge_use_checkbox f = Checked -> bridge_custom_radio f = true ->
  bridge_radios_exclusive f = true ->
  settings_from_fields loaded f = Built settings ->
  get "tor_bridges_use_custom_bridges" settings = Some (VStr text) ->
  bridge_use_checkbox f' = Checked -> bridge_custom_radio f' = true ->
  bridge_radios_exclusive f' = true ->
  bridge_custom_textbox f' = text ->
  exists settings',
    settings_from_fields loaded' f' = Built settings'
    /\ get "tor_bridges_use_custom_bridges" settings' = Some (VStr text).
Proof.
  intros Hu Hc Hx Hb Hg Hu' Hc' Hx' Ht.
  rewrite settings_from_fields_custom in Hb by assumption.
  rewrite settings_from_fields_custom by assumption.
  unfold set_custom_bridges in *. rewrite Hc in Hb. rewrite Hc', Ht.
  destruct (validate_bridges (bridge_custom_textbox f)) as [new valid] eqn:Ev.
  destruct valid; [|discriminate]. injection Hb as <-.
  rewrite get_set_eq in Hg. injection Hg as <-.
  rewrite (validate_bridges_stored _ _ Ev).
  eexists. split; [reflexivity|]. apply get_set_eq.
Qed.

Lemma custom_bridges_round_trip_witness :
  exists settings',
    settings_from_fields Sample.moat_settings
      (Sample.with_bridges Checked false [] false [] true
         (Sample.bridge_line ++ [Str.LF]))
    = Built settings'
    /\ get "tor_bridges_use_custom_bridges" settings'
       = Some (VStr (Sample.bridge_line ++ [Str.LF])).
Proof.
  apply (custom_bridges_round_trip Sample.obfs4_settings Sample.moat_settings
           Sample.custom_fields
           (Sample.with_bridges Checked false [] false [] true
              (Sample.bridge_line ++ [Str.LF]))
           (<["tor_bridges_use_custom_bridges" :=
                VStr (Sample.bridge_line ++ [Str.LF])]>
              (<["tor_bridges_use_obfs4" := VBool false]>
                 Sample.obfs4_settings)));
    compute_done.
Defined.

Lemma accepted_line_head b :
  accepted_line b = true ->
  exists c rest, b = c :: rest /\ Str.is_space c = false.
Proof.
  rewrite accepted_line_matches. destruct b as [|c rest].
  - rewrite bridge_matches_nil. discriminate.
  - intros H. exists c, rest. split; [reflexivity|].
    destruct (Str.is_space c) eqn:E; [|reflexivity].
    rewrite (bridge_matches_space c rest E) in H. discriminate.
Qed.

Lemma join_head sep c rest ls :
  exists tail, Str.join sep ((c :: rest) :: ls) = c :: tail.
Proof. destruct ls; simpl; eauto. Qed.

(** X5: a line that starts with white space is never kept, whatever else the
    text holds: an indented bridge line is dropped without a word. *)
Theorem indented_line_dropped textbox c rest :
  Str.is_space c = true ->
  (c :: rest) ∉ (validate_bridges textbox).1.
Proof.
  intros Hc Hin. rewrite validate_bridges_filter in Hin. simpl in Hin.
  apply list_elem_of_In, filter_In in Hin. destruct Hin as [_ Ha].
  apply accepted_line_head in Ha. destruct Ha as (c' & r & [= <- <-] & Hs).
  congruence.
Qed.

Lemma indented_line_dropped_witness :
  (32 :: Sample.bridge_line)
  ∉ (validate_bridges (32 :: Sample.bridge_line ++ [Str.LF])).1.
Proof. apply (indented_line_dropped _ 32 Sample.bridge_line). compute_done. Defined.

(** ** What the patterns let through *)

(** A pattern without [$] reads the same way whatever follows. *)
Lemma matches_extend r s s' more :
  Re.matches r s s' -> no_eos r = true -> Re.matches r (s ++ more) (s' ++ more).
Proof.
  induction 1 as [s|c s|x s Hx|items x s Hx|s _
                 |a b s s1 s2 _ IH1 _ IH2
                 |a b s s' _ IH|a b s s' _ IH|a hi s
                 |a lo hi s s1 s2 Hhi _ IH1 _ IH2];
    simpl; intros Hn; try discriminate;
    try (apply andb_true_iff in Hn; destruct Hn as [Ha Hb]).
  - constructor.
  - constructor.
  - constructor. exact Hx.
  - constructor. exact Hx.
  - econstructor; [apply IH1, Ha|apply IH2, Hb].
  - apply Re.M_alt_l, IH, Ha.
  - apply Re.M_alt_r, IH, Hb.
  - constructor.
  - eapply Re.M_rep_more; [exact Hhi|apply IH1, Hn|apply IH2, Hn].
Qed.

Lemma re_match_extend r bridge more :
  Re.wf r = true -> no_eos r = true ->
  Re.re_match r bridge = true -> Re.re_match r (bridge ++ more) = true.
Proof.
  intros Hwf Hn H. apply ReFacts.re_match_spec in H; [|exact Hwf].
  destruct H as [rest H]. apply ReFacts.re_match_spec; [exact Hwf|].
  exists (rest ++ more). apply matches_extend; assumption.
Qed.

(** X6: the meek_lite and the snowflake pattern do not look at what follows:
    a line that one of them matches is still accepted with any text added at
    its end. *)
Theorem trailing_text_ignored bridge more :
  Re.compiled_match meek_lite_pattern bridge = true
  \/ Re.compiled_match snowflake_pattern bridge = true ->
  bridge_matches (bridge ++ more) = true.
Proof.
  unfold bridge_matches.
  rewrite meek_lite_pattern_ast, snowflake_pattern_ast.
  unfold Re.compiled_match.
  intros [H|H].
  - rewrite (re_match_extend Ast.meek_lite bridge more);
      [rewrite !orb_true_r; reflexivity
      |vm_compute; reflexivity|vm_compute; reflexivity|exact H].
  - rewrite (re_match_extend Ast.snowflake bridge more);
      [rewrite !orb_true_r; reflexivity
      |vm_compute; reflexivity|vm_compute; reflexivity|exact H].
Qed.

Lemma trailing_text_ignored_witness :
  bridge_matches
    (Sample.u "snowflake 192.0.2.3:1 2B280B23E1107BB62ABFC40DDCC8824814F80A72"
     ++ Sample.u " anything at all")
  = true.
Proof. apply trailing_text_ignored. right. compute_done. Defined.

(** One or more characters of a class. *)
Lemma matches_plus_set items w rest :
  nonempty w = true ->
  forallb (fun x => existsb (Re.cset_item_mem x) items) w = true ->
  Re.matches (Re.RRep (Re.RSet items) 1 None) (w ++ rest) rest.
Proof.
  intros Hn Hw. apply ReFacts.matches_rep. exists (length w).
  split; [destruct w; [discriminate|simpl; lia]|]. split; [discriminate|].
  clear Hn. induction w as [|x w IH]; simpl; [reflexivity|].
  simpl in Hw. apply andb_true_iff in Hw. destruct Hw as [Hx Hw].
  exists (w ++ rest). split; [constructor; exact Hx|apply IH, Hw].
Qed.

Lemma matches_digits w rest :
  digits w = true -> Re.matches (Ast.plus Ast.digit) (w ++ rest) rest.
Proof.
  unfold digits. intros H. apply andb_true_iff in H. destruct H as [Hn Hw].
  apply matches_plus_set; [exact Hn|].
  rewrite forallb_forall in *. intros x Hx. specialize (Hw x Hx).
  simpl. rewrite orb_false_r. exact Hw.
Qed.

Lemma matches_fingerprint w rest :
  fingerprint w = true -> Re.matches Ast.fingerprint' (w ++ rest) rest.
Proof.
  unfold fingerprint. intros H. apply andb_true_iff in H.
  destruct H as [Hn Hw]. apply matches_plus_set; [exact Hn|].
  rewrite forallb_forall in *. intros x Hx. specialize (Hw x Hx).
  simpl. rewrite orb_false_r. exact Hw.
Qed.

Lemma matches_space rest :
  Re.matches (Ast.plus Ast.space) (32 :: rest) rest.
Proof. apply (matches_plus_set _ [32] rest); reflexivity. Qed.

Lemma matches_c a rest : Re.matches (Ast.c a) (Re.ch a :: rest) rest.
Proof. constructor. Qed.

(** X7: the snowflake pattern takes any numbers for the address and the
    port: every line [snowflake N.N.N.N:N F], with numbers [N] of one or
    more digits and a fingerprint [F] of digits and upper-case letters, is
    accepted, whatever the size of the numbers. *)
Theorem snowflake_numbers_unchecked a b c d port fp :
  digits a = true -> digits b = true -> digits c = true -> digits d = true ->
  digits port = true -> fingerprint fp = true ->
  bridge_matches
    (Str.of_string "snowflake " ++ a ++ Str.of_string "." ++ b
     ++ Str.of_string "." ++ c ++ Str.of_string "." ++ d
     ++ Str.of_string ":" ++ port ++ Str.of_string " " ++ fp)
  = true.
Proof.
  intros Ha Hb Hc Hd Hp Hf.
  assert (H : Re.re_match Ast.snowflake
                (Str.of_string "snowflake " ++ a ++ Str.of_string "." ++ b
                 ++ Str.of_string "." ++ c ++ Str.of_string "." ++ d
                 ++ Str.of_string ":" ++ port ++ Str.of_string " " ++ fp)
              = true).
  { apply ReFacts.re_match_spec; [vm_compute; reflexivity|]. exists [].
    rewrite <- (app_nil_r fp).
    unfold Ast.snowflake, Ast.ipv4_port, Re.cat, Ast.lit. simpl.
    eapply Re.M_cat; [|apply matches_fingerprint; exact Hf].
    eapply Re.M_cat; [|apply matches_space].
    eapply Re.M_cat.
    2:{ eapply Re.M_cat; [|apply matches_digits; exact Hp].
        eapply Re.M_cat; [|apply Re.M_char].
        eapply Re.M_cat; [|apply matches_digits; exact Hd].
        eapply Re.M_cat; [|apply Re.M_char].
        eapply Re.M_cat; [|apply matches_digits; exact Hc].
        eapply Re.M_cat; [|apply Re.M_char].
        eapply Re.M_cat; [|apply matches_digits; exact Hb].
        eapply Re.M_cat; [|apply Re.M_char].
        apply matches_digits; exact Ha. }
    eapply Re.M_cat; [|apply matches_space].
    repeat (eapply Re.M_cat; [|apply Re.M_char]). apply Re.M_char. }
  unfold bridge_matches. rewrite snowflake_pattern_ast.
  unfold Re.compiled_match at 4. rewrite H. rewrite !orb_true_r. reflexivity.
Qed.

Lemma snowflake_numbers_unchecked_witness :
  bridge_matches (Sample.u "snowflake 999.999.999.999:99999999 0") = true.
Proof.
  apply (snowflake_numbers_unchecked (Sample.u "999") (Sample.u "999")
           (Sample.u "999") (Sample.u "999") (Sample.u "99999999")
           (Sample.u "0"));
    compute_done.
Defined.

(** ** What a built configuration tells *)

Lemma writes_get loaded f settings ws key :
  settings_from_fields loaded f = Built settings ->
  writes f = Built ws ->
  get key settings
  = match last_write key ws with Some v => Some v | None => get key loaded end.
Proof.
  rewrite settings_from_fields_writes. intros H Hw. rewrite Hw in H.
  injection H as <-. apply lookup_apply_writes.
Qed.

Lemma last_write_app key ws ws' :
  last_write key (ws ++ ws')
  = match last_write key ws' with
    | Some v => Some v
    | None => last_write key ws
    end.
Proof.
  induction ws as [|[k v] ws IH]; simpl.
  - destruct (last_write key ws'); reflexivity.
  - rewrite IH. destruct (last_write key ws'); reflexivity.
Qed.

(** The stored custom bridges start with a character that is not white
    space. *)
Lemma stored_custom_not_blank textbox new_bridges :
  validate_bridges textbox = (new_bridges, true) ->
  blank (Str.join [Str.LF] new_bridges ++ [Str.LF]) = false.
Proof.
  intros H. destruct (validate_bridges_kept _ _ H) as (Hn & Ha & _).
  destruct new_bridges as [|b bs]; [congruence|].
  apply Forall_cons in Ha. destruct Ha as [Hb _].
  apply accepted_line_head in Hb. destruct Hb as (c & rest & -> & Hc).
  destruct (join_head [Str.LF] c rest bs) as [tail ->].
  simpl. unfold blank. simpl. rewrite Hc. reflexivity.
Qed.

(** X8: a built configuration with bridges tells which radio button was
    checked: with the checkbox checked and the three radio buttons
    exclusive (and the dropdown on one of its three names), each built-in
    flag is set exactly when the built-in radio button is checked with that
    name selected, the moat flag exactly when the moat radio button is
    checked, and the custom bridges are not blank exactly when the custom
    radio button is checked. *)
Theorem built_bridge_fields loaded f settings :
  bridge_use_checkbox f = Checked ->
  bridge_radios_exclusive f = true ->
  bridge_builtin_radio f || bridge_moat_radio f || bridge_custom_radio f = true ->
  (bridge_builtin_radio f = true ->
   In (bridge_builtin_dropdown f)
     [Str.of_string "obfs4"; Str.of_string "meek-azure";
      Str.of_string "snowflake"]) ->
  settings_from_fields loaded f = Built settings ->
  flag "tor_bridges_use_obfs4" settings
  = bridge_builtin_radio f
    && bool_decide (bridge_builtin_dropdown f = Str.of_string "obfs4")
  /\ flag "tor_bridges_use_meek_lite_azure" settings
     = bridge_builtin_radio f
       && bool_decide (bridge_builtin_dropdown f = Str.of_string "meek-azure")
  /\ flag "tor_bridges_use_snowflake" settings
     = bridge_builtin_radio f
       && bool_decide (bridge_builtin_dropdown f = Str.of_string "snowflake")
  /\ flag "tor_bridges_use_moat" settings = bridge_moat_radio f
  /\ has_custom_bridges settings = bridge_custom_radio f.
Proof.
  intros Hu Hx Hr Hd Hb.
  rewrite settings_from_fields_writes in Hb.
  destruct (writes f) as [ws|] eqn:Hw; [|discriminate].
  injection Hb as <-.
  unfold flag, has_custom_bridges. rewrite !lookup_apply_writes.
  revert Hw. unfold writes, moat_writes, custom_writes, builtin_writes.
  rewrite (bool_decide_eq_true_2 _ Hu).
  unfold bridge_radios_exclusive in Hx.
  destruct (bridge_builtin_radio f) eqn:Eb, (bridge_moat_radio f) eqn:Em,
    (bridge_custom_radio f) eqn:Ec; try discriminate; clear Hx Hr.
  - (* built-in *)
    specialize (Hd eq_refl). cbn [built_bind]. intros [= <-].
    rewrite !last_write_app.
    destruct Hd as [Hd|[Hd|[Hd|[]]]]; rewrite <- Hd; repeat split;
      reflexivity.
  - (* moat *)
    destruct (bool_decide (Str.strip (bridge_moat_textbox f) = []));
      [discriminate|]. cbn [built_bind]. intros [= <-].
    rewrite !last_write_app. repeat split; reflexivity.
  - (* custom *)
    destruct (validate_bridges (bridge_custom_textbox f)) as [new valid] eqn:Ev.
    destruct valid; [|discriminate]. cbn [built_bind]. intros [= <-].
    rewrite !last_write_app. repeat split; try reflexivity.
    cbn -[blank Str.join app decide].
    destruct (decide ("tor_bridges_use_custom_bridges"%string
                      = "tor_bridges_use_custom_bridges"%string));
      [|congruence].
    rewrite (stored_custom_not_blank _ _ Ev). reflexivity.
Qed.

Lemma built_bridge_fields_witness :
  flag "tor_bridges_use_obfs4" (Sample.select_snowflake Sample.moat_settings)
  = bridge_builtin_radio Sample.snowflake_fields
    && bool_decide (bridge_builtin_dropdown Sample.snowflake_fields
                    = Str.of_string "obfs4")
  /\ flag "tor_bridges_use_meek_lite_azure"
       (Sample.select_snowflake Sample.moat_settings)
     = bridge_builtin_radio Sample.snowflake_fields
       && bool_decide (bridge_builtin_dropdown Sample.snowflake_fields
                       = Str.of_string "meek-azure")
  /\ flag "tor_bridges_use_snowflake"
       (Sample.select_snowflake Sample.moat_settings)
     = bridge_builtin_radio Sample.snowflake_fields
       && bool_decide (bridge_builtin_dropdown Sample.snowflake_fields
                       = Str.of_string "snowflake")
  /\ flag "tor_bridges_use_moat" (Sample.select_snowflake Sample.moat_settings)
     = bridge_moat_radio Sample.snowflake_fields
  /\ has_custom_bridges (Sample.select_snowflake Sample.moat_settings)
     = bridge_custom_radio Sample.snowflake_fields.
Proof.
  apply (built_bridge_fields Sample.moat_settings Sample.snowflake_fields);
    compute_done.
Defined.

(** X9: the moat bridges are stored as the textbox has them: with the moat
    radio button the checked one and a textbox that is not blank, the
    builder succeeds whatever the text is (it is not matched against the
    bridge patterns) and stores the whole text, white space around it
    included. *)
Theorem moat_bridges_stored loaded f :
  bridge_use_checkbox f = Checked ->
  bridge_moat_radio f = true ->
  bridge_radios_exclusive f = true ->
  blank (bridge_moat_textbox f) = false ->
  exists settings,
    settings_from_fields loaded f = Built settings
    /\ get "tor_bridges_use_moat_bridges" settings
       = Some (VStr (bridge_moat_textbox f)).
Proof.
  intros Hu Hm Hx Hb. unfold bridge_radios_exclusive in Hx. rewrite Hm in Hx.
  destruct (bridge_builtin_radio f) eqn:Eb; [discriminate|].
  destruct (bridge_custom_radio f) eqn:Ec; [discriminate|].
  rewrite settings_from_fields_checked by exact Hu.
  unfold set_builtin_bridges, set_moat_bridges, set_custom_bridges.
  rewrite Eb, Hm, Ec.
  rewrite bool_decide_eq_false_2.
  - eexists. split; [reflexivity|].
    rewrite get_set_ne by discriminate. apply get_set_eq.
  - intros H. apply strip_nil_iff in H. congruence.
Qed.

Lemma moat_bridges_stored_witness :
  exists settings,
    settings_from_fields Sample.obfs4_settings
      (Sample.with_bridges Checked false [] true
         (Sample.u "  not a bridge line  ") false [])
    = Built settings
    /\ get "tor_bridges_use_moat_bridges" settings
       = Some (VStr (Sample.u "  not a bridge line  ")).
Proof.
  apply (moat_bridges_stored Sample.obfs4_settings
           (Sample.with_bridges Checked false [] true
              (Sample.u "  not a bridge line  ") false []));
    compute_done.
Defined.

Lemma get_connection_type_text_fields f settings :
  get "connection_type" (set_text_fields f settings)
  = get "connection_type" settings.
Proof.
  unfold set_text_fields. destruct (bool_decide _);
    rewrite !get_set_ne by discriminate; reflexivity.
Qed.

Lemma get_connection_type_builtin f settings :
  get "connection_type" (set_builtin_bridges f settings)
  = get "connection_type" settings.
Proof.
  unfold set_builtin_bridges. destruct (bridge_builtin_radio f); [|reflexivity].
  repeat (destruct (bool_decide _);
          [rewrite !get_set_ne by discriminate; reflexivity|]).
  rewrite !get_set_ne by discriminate. reflexivity.
Qed.

Lemma get_connection_type_moat f settings settings' :
  set_moat_bridges f settings = Built settings' ->
  get "connection_type" settings' = get "connection_type" settings.
Proof.
  unfold set_moat_bridges. destruct (bridge_moat_radio f);
    [destruct (bool_decide _); [discriminate|]|];
    intros [= <-]; rewrite ?get_set_ne by discriminate; reflexivity.
Qed.

Lemma get_connection_type_custom f settings settings' :
  set_custom_bridges f settings = Built settings' ->
  get "connection_type" settings' = get "connection_type" settings.
Proof.
  unfold set_custom_bridges. destruct (bridge_custom_radio f);
    [destruct (validate_bridges _) as [? []]; [|discriminate]|];
    intros [= <-]; rewrite ?get_set_ne by discriminate; reflexivity.
Qed.

(** X10: the connection type is that of the checked radio button, and when
    none of the four is checked it stays what the store held. *)
Theorem built_connection_type loaded f settings :
  settings_from_fields loaded f = Built settings ->
  (forall name, checked_connection_type f = Some name ->
     get "connection_type" settings = Some (VStr name))
  /\ (no_connection_type_checked f = true ->
      get "connection_type" settings = get "connection_type" loaded).
Proof.
  intros Hb.
  assert (G : get "connection_type" settings
              = get "connection_type" (set_connection_type f loaded)).
  { destruct (decide (bridge_use_checkbox f = Checked)) as [Hu|Hu].
    - rewrite settings_from_fields_checked in Hb by exact Hu.
      destruct (set_moat_bridges f _) as [s1|] eqn:Em; [|discriminate].
      cbn [built_bind] in Hb.
      rewrite (get_connection_type_custom _ _ _ Hb).
      rewrite (get_connection_type_moat _ _ _ Em).
      rewrite get_connection_type_builtin, get_set_ne by discriminate.
      apply get_connection_type_text_fields.
    - rewrite settings_from_fields_unchecked in Hb by exact Hu.
      injection Hb as <-. rewrite get_set_ne by discriminate.
      apply get_connection_type_text_fields. }
  rewrite G. unfold checked_connection_type, no_connection_type_checked,
    set_connection_type.
  destruct (connection_type_bundled_radio f),
    (connection_type_automatic_radio f),
    (connection_type_control_port_radio f),
    (connection_type_socket_file_radio f); simpl;
    (split; [intros name Hn; try discriminate; injection Hn as <-;
             apply get_set_eq
            |intros Hn; try discriminate; reflexivity]).
Qed.

Lemma built_connection_type_witness :
  (forall name,
     checked_connection_type Sample.snowflake_fields = Some name ->
     get "connection_type" (Sample.select_snowflake Sample.obfs4_settings)
     = Some (VStr name))
  /\ (no_connection_type_checked Sample.snowflake_fields = true ->
      get "connection_type" (Sample.select_snowflake Sample.obfs4_settings)
      = get "connection_type" Sample.obfs4_settings).
Proof.
  apply (built_connection_type Sample.obfs4_settings Sample.snowflake_fields).
  compute_done.
Defined.

(** ** Invariants of the runs *)

Lemma step_effect t t' :
  step t t' ->
  exists added,
    events t' = events t ++ added
    /\ effect (tor_con_type t) added (tor_con_type t')
    /\ (tor_con_type t' = tor_con_type t ->
        buttons_shown t' = buttons_shown t
        /\ tor_con_shown t' = tor_con_shown t)
    /\ (tor_con_type t' <> tor_con_type t ->
        buttons_shown t' = bool_decide (tor_con_type t' = None)
        /\ tor_con_shown t' = negb (bool_decide (tor_con_type t' = None))).
Proof.
  intros [t0 f|t0 a c|t0 Hn|t0 Hn|t0 Hn|t0 msg Hn].
  - exists []. simpl. rewrite app_nil_r.
    repeat split; try constructor; congruence.
  - exists []. simpl. rewrite app_nil_r.
    repeat split; try constructor; congruence.
  - unfold test_tor_clicked. simpl.
    destruct (settings_from_fields (stored t0) (fields t0)) as [s|]; simpl.
    + exists [TestOnionNew; TorConStart s true]. rewrite Hn, <- app_assoc.
      repeat split; try constructor; try congruence.
    + exists []. rewrite app_nil_r.
      repeat split; try constructor; congruence.
  - unfold save_clicked. simpl.
    destruct (settings_from_fields (stored t0) (fields t0)) as [s|]; simpl.
    + destruct (local_only t0); simpl;
        [|destruct (reboot_onion _ _ _); simpl].
      * exists [SettingsSave s; CloseThisTab]. rewrite Hn, <- app_assoc.
        repeat split; try constructor; congruence.
      * exists [SettingsSave s; OnionCleanup; TorConStart s false].
        rewrite Hn, <- !app_assoc.
        repeat split; try constructor; try congruence.
      * exists [SettingsSave s; CloseThisTab]. rewrite Hn, <- app_assoc.
        repeat split; try constructor; congruence.
    + exists []. rewrite app_nil_r.
      repeat split; try constructor; congruence.
  - unfold tor_con_success. simpl.
    destruct (tor_con_type t0) as [[]|]; [| |congruence]; simpl.
    + exists [AlertTestSuccess; TestOnionCleanup]. rewrite <- app_assoc.
      repeat split; try constructor; congruence.
    + destruct (is_authenticated t0 && negb (wasCanceled t0)); simpl.
      * exists [CloseThisTab]. repeat split; try constructor; congruence.
      * exists []. rewrite app_nil_r.
        repeat split; try constructor; congruence.
  - unfold tor_con_fail. simpl.
    destruct (tor_con_type t0) as [[]|]; [| |congruence]; simpl.
    + exists [TestOnionCleanup]. repeat split; try constructor; congruence.
    + exists []. rewrite app_nil_r.
      repeat split; try constructor; congruence.
Qed.

Lemma step_idle_or_connecting t t' :
  step t t' -> idle_or_connecting t -> idle_or_connecting t'.
Proof.
  intros Hs Hi. destruct (step_effect _ _ Hs) as (added & _ & _ & Hsame & Hdiff).
  unfold idle_or_connecting in *.
  destruct (decide (tor_con_type t' = tor_con_type t)) as [E|E].
  - destruct (Hsame E) as [-> ->]. rewrite E. exact Hi.
  - destruct (Hdiff E) as [-> ->].
    destruct (tor_con_type t') as [c|]; [right|left]; simpl;
      repeat split; congruence.
Qed.

(** X11: while a connection attempt runs the Test and Save buttons are hidden
    and the connection widget is shown, and at any other time it is the
    other way round: in every run of the tab that starts in one of these two
    ways, every later state is in one of them. *)
Theorem run_idle_or_connecting t t' :
  rtc step t t' -> idle_or_connecting t -> idle_or_connecting t'.
Proof.
  induction 1 as [t|t t1 t2 Hs _ IH]; intros Hi; [exact Hi|].
  apply IH. eapply step_idle_or_connecting; eassumption.
Qed.

Lemma run_idle_or_connecting_witness :
  idle_or_connecting
    (test_tor_clicked
       (Sample.tab Sample.obfs4_settings Sample.snowflake_fields false false)).
Proof.
  apply (run_idle_or_connecting
           (Sample.tab Sample.obfs4_settings Sample.snowflake_fields
              false false)).
  - apply rtc_once. apply step_test. reflexivity.
  - left. repeat split; reflexivity.
Defined.

Lemma count_events_app kind log log' :
  count_events kind (log ++ log')
  = (count_events kind log + count_events kind log')%nat.
Proof. unfold count_events. rewrite List.filter_app, length_app. reflexivity. Qed.

Lemma step_test_onions_balanced t t' :
  step t t' -> test_onions_balanced t -> test_onions_balanced t'.
Proof.
  intros Hs Hi. destruct (step_effect _ _ Hs) as (added & He & Hf & _).
  unfold test_onions_balanced in *. rewrite He, !count_events_app.
  destruct (tor_con_type t) as [c|], (tor_con_type t') as [c'|];
    inversion Hf; subst; unfold count_events in *; simpl in *; try lia;
    match goal with c0 : con_type |- _ => destruct c0; lia end.
Qed.

(** X12: no throwaway onion is left behind: in every run of the tab, each
    onion made for a test has been cleaned up, but for the one of the test
    attempt that still runs. *)
Theorem run_test_onions_balanced t t' :
  rtc step t t' -> test_onions_balanced t -> test_onions_balanced t'.
Proof.
  induction 1 as [t|t t1 t2 Hs _ IH]; intros Hi; [exact Hi|].
  apply IH. eapply step_test_onions_balanced; eassumption.
Qed.

Lemma run_test_onions_balanced_witness :
  test_onions_balanced
    (tor_con_fail (Sample.u "Tor failed")
       (test_tor_clicked
          (Sample.tab Sample.obfs4_settings Sample.snowflake_fields
             false false))).
Proof.
  apply (run_test_onions_balanced
           (Sample.tab Sample.obfs4_settings Sample.snowflake_fields
              false false)).
  - eapply rtc_l; [apply step_test; reflexivity|].
    apply rtc_once. apply step_fail. discriminate.
  - reflexivity.
Defined.

Lemma starts_prepared_app log added c c' :
  effect c added c' -> starts_prepared log -> starts_prepared (log ++ added).
Proof.
  intros Hf Hp i settings test Hi.
  apply lookup_app_Some in Hi. destruct Hi as [Hi|[Hle Hi]].
  - specialize (Hp i settings test Hi). destruct test.
    + destruct Hp as (j & -> & Hj). exists j.
      split; [reflexivity|]. apply lookup_app_l_Some. exact Hj.
    + destruct Hp as (j & -> & Hj & Hj'). exists j.
      split; [reflexivity|].
      split; apply lookup_app_l_Some; assumption.
  - remember (i - length log)%nat as k eqn:E.
    destruct Hf as [c0|s|s|s| | | |];
      destruct k as [|[|[|k]]]; simpl in Hi; try discriminate;
      injection Hi as <- <-.
    + exists (length log). split; [lia|].
      rewrite lookup_app_r by lia. rewrite Nat.sub_diag. reflexivity.
    + exists (length log). split; [lia|]. split.
      * rewrite lookup_app_r by lia. rewrite Nat.sub_diag. reflexivity.
      * rewrite lookup_app_r by lia.
        replace (S (length log) - length log)%nat with 1%nat by lia.
        reflexivity.
Qed.

(** X13: a connection attempt is always prepared: in the log of every run of
    the tab, a start on the main onion comes right after the save of the
    very settings it is started with and the clean-up of the onion, and a
    test start right after the making of a throwaway onion. *)
Theorem run_starts_prepared t t' :
  rtc step t t' -> starts_prepared (events t) -> starts_prepared (events t').
Proof.
  induction 1 as [t|t t1 t2 Hs _ IH]; intros Hi; [exact Hi|].
  apply IH. destruct (step_effect _ _ Hs) as (added & -> & Hf & _).
  eapply starts_prepared_app; eassumption.
Qed.

Lemma run_starts_prepared_witness :
  starts_prepared
    (events
       (save_clicked
          (Sample.tab Sample.obfs4_settings Sample.snowflake_fields
             false false))).
Proof.
  apply (run_starts_prepared
           (Sample.tab Sample.obfs4_settings Sample.snowflake_fields
              false false)).
  - apply rtc_once. apply step_save. reflexivity.
  - intros i settings test Hi. simpl in Hi. discriminate.
Defined.

Lemma saved_before_app log added c c' :
  effect c added c' -> saved_before log c -> saved_before (log ++ added) c'.
Proof.
  intros Hf [Hc Hs].
  assert (Hold : forall i,
             (log ++ added) !! i = Some CloseThisTab ->
             (i < length log)%nat ->
             exists j settings,
               (j < i)%nat
               /\ (log ++ added) !! j = Some (SettingsSave settings)).
  { intros i Hi Hlt. rewrite lookup_app_l in Hi by exact Hlt.
    destruct (Hc i Hi) as (j & s & Hj & Hjs). exists j, s.
    split; [exact Hj|]. apply lookup_app_l_Some. exact Hjs. }
  split.
  - intros i Hi.
    destruct (decide (i < length log)%nat) as [Hlt|Hge];
      [apply Hold; assumption|].
    rewrite lookup_app_r in Hi by lia.
    remember (i - length log)%nat as k eqn:E.
    destruct Hf as [c0|s|s|s| | | |];
      destruct k as [|[|[|k]]]; simpl in Hi; try discriminate.
    + exists (length log), s. split; [lia|].
      rewrite lookup_app_r by lia. rewrite Nat.sub_diag. reflexivity.
    + destruct (Hs eq_refl) as (j & s & Hj). exists j, s.
      split; [apply lookup_lt_Some in Hj; lia|].
      apply lookup_app_l_Some. exact Hj.
  - intros Hc'. destruct Hf as [c0|s|s|s| | | |]; try discriminate.
    + rewrite app_nil_r. apply Hs, Hc'.
    + exists (length log), s.
      rewrite lookup_app_r by lia. rewrite Nat.sub_diag. reflexivity.
Qed.

Lemma run_saved_before t t' :
  rtc step t t' ->
  saved_before (events t) (tor_con_type t) ->
  saved_before (events t') (tor_con_type t').
Proof.
  induction 1 as [t|t t1 t2 Hs _ IH]; intros Hi; [exact Hi|].
  apply IH. destruct (step_effect _ _ Hs) as (added & -> & Hf & _).
  eapply saved_before_app; eassumption.
Qed.

(** X14: the tab closes itself only after a save: in the log of every run of
    a tab that starts with an empty log and no attempt running, every
    [close_this_tab] comes after a [settings.save()]; a test never closes
    the tab. *)
Theorem run_closes_after_save t t' :
  rtc step t t' ->
  events t = [] -> tor_con_type t = None ->
  closes_after_save (events t').
Proof.
  intros Hr He Hn. apply (run_saved_before t t' Hr).
  rewrite He, Hn. split.
  - intros i Hi. discriminate.
  - discriminate.
Qed.

Lemma run_closes_after_save_witness :
  closes_after_save
    (events
       (save_clicked
          (Sample.tab Sample.obfs4_settings Sample.snowflake_fields
             true false))).
Proof.
  apply (run_closes_after_save
           (Sample.tab Sample.obfs4_settings Sample.snowflake_fields
              true false)).
  - apply rtc_once. apply step_save. reflexivity.
  - reflexivity.
  - reflexivity.
Defined.

(** ** Saving, closing and quitting *)

(** X15: Save without a reconnect: in local-only mode, whatever the session
    and the changes are, and with an authenticated session when the built
    configuration has the old values under the twelve compared keys, the
    configuration is saved and the tab closes; the onion is not cleaned up
    and no connection attempt is started. *)
Theorem save_without_reconnect t settings :
  settings_from_fields (stored t) (fields t) = Built settings ->
  local_only t = true
  \/ (is_authenticated t = true
      /\ forall key, In key compared_keys ->
           get key settings = get key (old_settings t)) ->
  events (save_clicked t) = events t ++ [SettingsSave settings; CloseThisTab]
  /\ tor_con_type (save_clicked t) = tor_con_type t
  /\ buttons_shown (save_clicked t) = buttons_shown t.
Proof.
  intros Hb H. unfold save_clicked. simpl. rewrite Hb. simpl.
  destruct H as [-> | [Ha Hk]]; simpl.
  - rewrite <- app_assoc. auto.
  - assert (Hr : reboot_onion (is_authenticated t) settings (old_settings t)
                 = false).
    { rewrite Ha. destruct (reboot_onion true _ _) eqn:E; [|reflexivity].
      apply reboot_onion_authenticated in E. destruct E as (key & Hin & Hne).
      rewrite (Hk key Hin), py_ne_refl in Hne. discriminate. }
    rewrite Hr. destruct (local_only t); simpl; rewrite <- app_assoc; auto.
Qed.

Lemma save_without_reconnect_witness :
  events (save_clicked
            (Sample.tab Sample.moat_settings Sample.snowflake_fields true false))
  = [] ++ [SettingsSave (Sample.select_snowflake Sample.moat_settings);
           CloseThisTab]
  /\ tor_con_type
       (save_clicked
          (Sample.tab Sample.moat_settings Sample.snowflake_fields true false))
     = None
  /\ buttons_shown
       (save_clicked
          (Sample.tab Sample.moat_settings Sample.snowflake_fields true false))
     = true.
Proof.
  apply (save_without_reconnect
           (Sample.tab Sample.moat_settings Sample.snowflake_fields true false)
           (Sample.select_snowflake Sample.moat_settings)).
  - compute_done.
  - left. reflexivity.
Defined.

(** X16: the tab does not close itself into a quit: when [save_clicked] or
    [tor_con_success] emits [close_this_tab], closing the tab (the onion
    answering as before) does not quit OnionShare. *)
Theorem close_this_tab_does_not_quit t handler added :
  handler = save_clicked \/ handler = tor_con_success ->
  events (handler t) = events t ++ added ->
  In CloseThisTab added ->
  closeEvent (handler t) = false.
Proof.
  intros Hh He Hin.
  assert (Hc : closeEvent (handler t) = closeEvent t).
  { assert (Hl : local_only (handler t) = local_only t
                 /\ is_authenticated (handler t) = is_authenticated t).
    { destruct Hh as [-> | ->]; unfold save_clicked, tor_con_success; simpl.
      - destruct (settings_from_fields _ _); simpl; [|auto].
        destruct (negb (local_only t)); simpl; [|auto].
        destruct (reboot_onion _ _ _); simpl; auto.
      - destruct (tor_con_type t) as [[]|]; simpl; auto.
        destruct (is_authenticated t && negb (wasCanceled t)); simpl; auto. }
    unfold closeEvent. destruct Hl as [-> ->]. reflexivity. }
  rewrite Hc. unfold closeEvent.
  destruct (local_only t) eqn:El; [reflexivity|]. simpl.
  destruct (is_authenticated t) eqn:Ea; [reflexivity|]. exfalso.
  destruct Hh as [-> | ->]; revert He;
    unfold save_clicked, tor_con_success; simpl.
  - destruct (settings_from_fields _ _) as [s|]; simpl.
    + rewrite El, Ea. simpl. rewrite <- !app_assoc. intros He.
      apply app_inv_head in He. subst added. simpl in Hin.
      intuition discriminate.
    + intros He. rewrite <- (app_nil_r (events t)) in He at 1.
      apply app_inv_head in He. subst added. destruct Hin.
  - rewrite Ea. destruct (tor_con_type t) as [[]|]; simpl.
    + rewrite <- app_assoc. intros He. apply app_inv_head in He.
      subst added. simpl in Hin. intuition discriminate.
    + intros He. rewrite <- (app_nil_r (events t)) in He at 1.
      apply app_inv_head in He. subst added. destruct Hin.
    + intros He. rewrite <- (app_nil_r (events t)) in He at 1.
      apply app_inv_head in He. subst added. destruct Hin.
Qed.

Lemma close_this_tab_does_not_quit_witness :
  closeEvent
    (save_clicked
       (Sample.tab Sample.moat_settings Sample.moat_to_snowflake_fields
          false true))
  = false.
Proof.
  apply (close_this_tab_does_not_quit
           (Sample.tab Sample.moat_settings Sample.moat_to_snowflake_fields
              false true)
           save_clicked
           [SettingsSave (Sample.select_snowflake Sample.moat_settings);
            CloseThisTab]).
  - left. reflexivity.
  - compute_done.
  - simpl. auto.
Defined.

(** Splitting goes piece by piece. *)
Lemma split_app sep a b :
  Str.split sep (a ++ sep :: b) = Str.split sep a ++ Str.split sep b.
Proof.
  induction a as [|c a IH]; simpl.
  - rewrite N.eqb_refl. reflexivity.
  - destruct (N.eqb c sep); rewrite IH; [reflexivity|].
    destruct (split_cons_inv sep a) as (l & ls & ->). reflexivity.
Qed.

(** X17: the lines are judged one by one: the validation of two texts put
    one after the other with a line feed between them keeps what it keeps
    of the first, followed by what it keeps of the second, and succeeds when
    it does on one of them. *)
Theorem validate_bridges_app a b :
  validate_bridges (a ++ Str.LF :: b)
  = ((validate_bridges a).1 ++ (validate_bridges b).1,
     (validate_bridges a).2 || (validate_bridges b).2).
Proof.
  rewrite !validate_bridges_filter, split_app. simpl.
  rewrite List.filter_app, existsb_app. reflexivity.
Qed.

(** ** The toggle handlers *)

Lemma toggles_app signals signals' v :
  toggles (signals ++ signals') v = toggles signals' (toggles signals v).
Proof. apply foldl_app. Qed.

(** X18: of the three bridge option widgets (the dropdown, the requested
    bridges, the custom bridges), the one of the bridge radio button that was
    checked last is shown and the other two are hidden, whatever the widgets
    showed before and whatever signals of the other buttons, or signals of
    unchecking, come in between or after. *)
Theorem bridge_options_follow_last_checked before b after v :
  is_bridge_type b = true ->
  Forall (fun signal => is_bridge_type signal.1 && signal.2 = false) after ->
  let v' := toggles (before ++ (b, true) :: after) v in
  bridge_builtin_dropdown_shown v' = bool_decide (b = Builtin)
  /\ bridge_moat_textbox_options_shown v' = bool_decide (b = Moat)
  /\ bridge_custom_textbox_options_shown v' = bool_decide (b = Custom).
Proof.
  intros Hb Hafter. cbv zeta. rewrite toggles_app.
  change (toggles ((b, true) :: after) (toggles before v))
    with (toggles after (toggled b true (toggles before v))).
  generalize (toggles before v). clear before v. intros v.
  assert (H : bridge_builtin_dropdown_shown (toggled b true v)
              = bool_decide (b = Builtin)
              /\ bridge_moat_textbox_options_shown (toggled b true v)
                 = bool_decide (b = Moat)
              /\ bridge_custom_textbox_options_shown (toggled b true v)
                 = bool_decide (b = Custom)).
  { destruct b; try discriminate; simpl; auto. }
  revert H. generalize (toggled b true v). clear v.
  induction Hafter as [|[b' checked] after Hc _ IH]; intros v H;
    [exact H|].
  change (toggles ((b', checked) :: after) v)
    with (toggles after (toggled b' checked v)).
  apply IH. simpl in Hc.
  destruct b', checked; try discriminate; exact H.
Qed.

Lemma bridge_options_follow_last_checked_witness :
  let v' :=
    toggles ([(Builtin, true); (Builtin, false)]
             ++ (Moat, true) :: [(ControlPort, true); (Custom, false)])
      initially_shown in
  bridge_builtin_dropdown_shown v' = bool_decide (Moat = Builtin)
  /\ bridge_moat_textbox_options_shown v' = bool_decide (Moat = Moat)
  /\ bridge_custom_textbox_options_shown v' = bool_decide (Moat = Custom).
Proof.
  apply (bridge_options_follow_last_checked
           [(Builtin, true); (Builtin, false)] Moat
           [(ControlPort, true); (Custom, false)] initially_shown).
  - reflexivity.
  - repeat constructor.
Defined.

(** X19: the groups follow the connection type that was checked last: the Tor
    settings group and the SOCKS fields are shown for a control port and for
    a socket file and hidden for the other two, the bridges are shown for the
    bundled Tor and hidden for the other three, whatever the widgets showed
    before and whatever signals of the other buttons, or signals of
    unchecking, come in between or after. *)
Theorem groups_follow_last_checked before b after v :
  is_connection_type b = true ->
  Forall (fun signal => is_connection_type signal.1 && signal.2 = false)
    after ->
  let v' := toggles (before ++ (b, true) :: after) v in
  tor_settings_group_shown v'
    = bool_decide (b = ControlPort \/ b = SocketFile)
  /\ connection_type_socks_shown v'
     = bool_decide (b = ControlPort \/ b = SocketFile)
  /\ connection_type_bridges_radio_group_shown v'
     = bool_decide (b = Bundled).
Proof.
  intros Hb Hafter. cbv zeta. rewrite toggles_app.
  change (toggles ((b, true) :: after) (toggles before v))
    with (toggles after (toggled b true (toggles before v))).
  generalize (toggles before v). clear before v. intros v.
  assert (H : tor_settings_group_shown (toggled b true v)
              = bool_decide (b = ControlPort \/ b = SocketFile)
              /\ connection_type_socks_shown (toggled b true v)
                 = bool_decide (b = ControlPort \/ b = SocketFile)
              /\ connection_type_bridges_radio_group_shown (toggled b true v)
                 = bool_decide (b = Bundled)).
  { destruct b; try discriminate; simpl; auto. }
  revert H. generalize (toggled b true v). clear v.
  induction Hafter as [|[b' checked] after Hc _ IH]; intros v H;
    [exact H|].
  change (toggles ((b', checked) :: after) v)
    with (toggles after (toggled b' checked v)).
  apply IH. simpl in Hc.
  destruct b', checked; try discriminate; exact H.
Qed.

Lemma groups_follow_last_checked_witness :
  let v' :=
    toggles ([(ControlPort, true)]
             ++ (Bundled, true) :: [(ControlPort, false); (Builtin, true)])
      initially_shown in
  tor_settings_group_shown v'
    = bool_decide (Bundled = ControlPort \/ Bundled = SocketFile)
  /\ connection_type_socks_shown v'
     = bool_decide (Bundled = ControlPort \/ Bundled = SocketFile)
  /\ connection_type_bridges_radio_group_shown v'
     = bool_decide (Bundled = Bundled).
Proof.
  apply (groups_follow_last_checked
           [(ControlPort, true)] Bundled
           [(ControlPort, false); (Builtin, true)] initially_shown).
  - reflexivity.
  - repeat constructor.
Defined.

(** X20: a change of the connection type, which unchecks one radio button and
    checks another, keeps the extra fields in step with the selection: if
    they were shown for the old connection type and for no other, they are
    shown for the new one and for no other; and the two signals can come in
    either order. *)
Theorem extras_follow_selection old new v :
  is_connection_type old = true ->
  is_connection_type new = true ->
  old <> new ->
  extras_match (Some old) v ->
  extras_match (Some new) (toggles [(old, false); (new, true)] v)
  /\ toggles [(new, true); (old, false)] v
     = toggles [(old, false); (new, true)] v.
Proof.
  intros Ho Hn Hne [Hc Hs]. unfold extras_match.
  destruct old; try discriminate; destruct new; try discriminate;
    try congruence; simpl in *; auto.
Qed.

Lemma extras_follow_selection_witness :
  extras_match (Some Bundled)
    (toggles [(ControlPort, false); (Bundled, true)]
       (toggles [(ControlPort, true)] initially_shown))
  /\ toggles [(Bundled, true); (ControlPort, false)]
       (toggles [(ControlPort, true)] initially_shown)
     = toggles [(ControlPort, false); (Bundled, true)]
         (toggles [(ControlPort, true)] initially_shown).
Proof.
  apply (extras_follow_selection ControlPort Bundled
           (toggles [(ControlPort, true)] initially_shown)).
  - reflexivity.
  - reflexivity.
  - discriminate.
  - split; reflexivity.
Defined.
